(** * nada-data: provenance-tracking arrays of secret integers

    A shallow embedding of [src/nada_data/array/nada_array.py] and
    [src/nada_data/array/functions/arithmetic.py], followed by the
    properties of the [NadaArray] collection, of the party-gathering
    traversal and of [sum_nada_array].

    Python sets of party names are finite sets of strings ([gset string]),
    Python lists are Rocq lists, Python integers used as subscripts are [Z].
    Methods that mutate [self] are computations in a small state-and-exception
    monad: a raised exception keeps whatever mutation was done before it. *)

From Stdlib Require Import ZArith List Ascii String DecimalString.
From stdpp Require Import base tactics option list strings gmap sets sorting.

Set Warnings "-register-all,-clear-no-such-hyp".
Local Open Scope Z_scope.
Local Open Scope list_scope.

(** ** Values of the external DSL ([nada_dsl]) *)

(** A party is identified by its [name]. *)
Record Party := { name : string }.

(** The attributes that [traverse] looks for on a node that is neither an
    [Input] nor a [Literal]; [None] is an attribute the object does not have
    ([hasattr] is false). *)
Record links (N : Type) := Links {
  inner : option N;
  left : option N;
  right : option N;
  arg_0 : option N;
  arg_1 : option N;
  this : option N }.
Arguments Links {N} _ _ _ _ _ _.
Arguments inner {N} _.
Arguments left {N} _.
Arguments right {N} _.
Arguments arg_0 {N} _.
Arguments arg_1 {N} _.
Arguments this {N} _.

(** Objects met while walking an expression graph: an instance of
    [nada_dsl.Input] with its [party] attribute (possibly [None]), an
    instance of [nada_dsl.Literal], and an object of any other class. Each is
    seen through the six attributes above, whatever its class. The graph is
    acyclic; a node shared by several parents appears under each of them. *)
Inductive node :=
| Input (party : option Party) (attrs : links node)
| Literal (attrs : links node)
| Operation (attrs : links node).

(** The Python objects handed to the array. [SecretInteger] is the DSL's
    plain secret integer, itself an object with attributes;
    [AuditSecretInteger] is [audit.SecretInteger] with its [parties] list.
    The remaining constructors are the objects of other classes that the
    constructor and the type check tell apart. A generator is the list of
    items it has yet to yield. *)
Inductive pyval :=
| SecretInteger (attrs : links node)
| AuditSecretInteger (parties : list Party)
| PyInt (z : Z)
| PyTuple (items : list pyval)
| PyList (items : list pyval)
| PyGenerator (pending : list pyval)
| PyObject (cls : string).

Inductive pytype :=
| TSecretInteger | TAuditSecretInteger | TInt | TTuple | TList | TGenerator
| TObject (cls : string).

#[global] Instance pytype_eq_dec : EqDecision pytype.
Proof. solve_decision. Defined.

(** [type(item)] *)
Definition type (item : pyval) : pytype :=
  match item with
  | SecretInteger _ => TSecretInteger
  | AuditSecretInteger _ => TAuditSecretInteger
  | PyInt _ => TInt
  | PyTuple _ => TTuple
  | PyList _ => TList
  | PyGenerator _ => TGenerator
  | PyObject cls => TObject cls
  end.

(** [secret_int_types = {SecretInteger, audit.SecretInteger}] *)
Definition secret_int_types : list pytype :=
  [TSecretInteger; TAuditSecretInteger].

(** [type(item) in secret_int_types] *)
Definition is_secret_int (item : pyval) : bool :=
  bool_decide (type item ∈ secret_int_types).

(** ** Exceptions *)

Inductive exn := TypeError | IndexError.

Inductive result (A : Type) :=
| Ok (a : A)
| Raise (e : exn).
Arguments Ok {A} a.
Arguments Raise {A} e.

(** ** Module-level [_gather_parties] *)

(** The inner function [traverse(n)] adds to the enclosing
    [party_attributes] set; the set is threaded through as an accumulator.
    The attributes are visited in the order of the source's list
    [['inner', 'left', 'right', 'arg_0', 'arg_1', 'this']]. *)
Fixpoint traverse (n : node) (party_attributes : gset string) : gset string :=
  match n with
  | Input party _ =>
      match party with
      | Some p => party_attributes ∪ {[ name p ]}
      | None => party_attributes
      end
  | Literal _ => party_attributes
  | Operation (Links i l r a0 a1 t) =>
      let s1 := match i with Some c => traverse c party_attributes | None => party_attributes end in
      let s2 := match l with Some c => traverse c s1 | None => s1 end in
      let s3 := match r with Some c => traverse c s2 | None => s2 end in
      let s4 := match a0 with Some c => traverse c s3 | None => s3 end in
      let s5 := match a1 with Some c => traverse c s4 | None => s4 end in
      match t with Some c => traverse c s5 | None => s5 end
  end.

(** [_gather_parties(node)]: start from the empty set. *)
Definition _gather_parties (n : node) : gset string := traverse n ∅.

(** ** Python list subscripts *)

(** [l[i]], [l[i] = x] and [del l[i]] accept [-len(l) <= i < len(l)] and
    count a negative subscript from the end; anything else is an
    [IndexError]. *)
Definition subscript (len : nat) (i : Z) : option nat :=
  if 0 <=? i then
    if i <? Z.of_nat len then Some (Z.to_nat i) else None
  else
    if - Z.of_nat len <=? i then Some (Z.to_nat (i + Z.of_nat len)) else None.

(** The indices that fit a machine index ([Py_ssize_t], 64 bits). The
    built-in [list.insert(i, x)] converts [i] to one before it looks at the
    list, and raises [OverflowError] for an [i] outside this range. *)
Definition fits_ssize_t (i : Z) : Prop := - 2 ^ 63 <= i <= 2 ^ 63 - 1.

(** Where [list.insert(i, x)] puts the new element, for an index that fits a
    machine index: a negative [i] counts from the end and the position is
    clamped to [0 .. len(l)]. The [OverflowError] of an index outside that
    range is not part of this function: what is proved of [insert] at an
    index of unknown size assumes [fits_ssize_t]. *)
Definition insert_position (len : nat) (i : Z) : nat :=
  let pos := if i <? 0 then i + Z.of_nat len else i in
  let pos := if pos <? 0 then 0 else pos in
  let pos := if Z.of_nat len <? pos then Z.of_nat len else pos in
  Z.to_nat pos.

Definition list_insert_at {A} (l : list A) (i : Z) (x : A) : list A :=
  let k := insert_position (length l) i in
  take k l ++ x :: drop k l.

(** ** Rendering *)

(** [str(n)] for a length. *)
Definition str_of_nat (n : nat) : string :=
  NilZero.string_of_uint (Nat.to_uint n).


(** Python compares strings code point by code point; on the UTF-8 bytes
    that a [string] holds this is the byte-wise lexicographic order. *)
Definition str_le (s1 s2 : string) : Prop := String.leb s1 s2 = true.

#[global] Instance str_le_dec : RelDecision str_le.
Proof. intros s1 s2. unfold str_le. apply _. Defined.



(** ** The [NadaArray] class *)

Module NadaArray.

(** The two instance attributes. *)
Record t := Build { _data : list pyval; _parties : gset string }.

(** A method body: it reads and updates [self] and returns a value or
    raises. The state that comes out of a raise is the state at the
    [raise] statement. *)
Definition M (A : Type) : Type := t → result A * t.

Definition ret {A} (a : A) : M A := λ self, (Ok a, self).

Definition raise {A} (e : exn) : M A := λ self, (Raise e, self).

Definition bind {A B} (m : M A) (k : A → M B) : M B :=
  λ self,
    match m self with
    | (Ok a, self') => k a self'
    | (Raise e, self') => (Raise e, self')
    end.

Definition get_data : M (list pyval) := λ self, (Ok (_data self), self).

Definition set_data (d : list pyval) : M unit :=
  λ self, (Ok tt, Build d (_parties self)).

Definition get_parties_attr : M (gset string) :=
  λ self, (Ok (_parties self), self).

Definition set_parties (p : gset string) : M unit :=
  λ self, (Ok tt, Build (_data self) p).

Declare Scope py_scope.
Delimit Scope py_scope with py.
Notation "x <~ m ;; k" := (bind m (λ x, k))
  (at level 100, m at next level, right associativity) : py_scope.
Notation "m ;; k" := (bind m (λ _, k))
  (at level 100, right associativity) : py_scope.
Local Open Scope py_scope.

(** [for item in items: body(item)], started on the items still to be
    yielded. Next to the outcome it returns the items that were never
    drawn: all those after the one on which [body] raised. *)
Fixpoint for_in (body : pyval → M unit) (items : list pyval) (self : t)
  : result unit * t * list pyval :=
  match items with
  | [] => (Ok tt, self, [])
  | item :: rest =>
      match body item self with
      | (Ok _, self') => for_in body rest self'
      | (Raise e, self') => (Raise e, self', rest)
      end
  end.

(** [__len__] *)
Definition __len__ (self : t) : nat := length (_data self).

(** [_check_type(item)] (static) *)
Definition _check_type (item : pyval) : M unit :=
  if is_secret_int item then ret tt else raise TypeError.

(** [_gather_parties(obj)] (static). [isinstance] is read on the exact
    class: subclasses of the two secret integer classes are not modelled. *)
Definition _gather_parties (obj : pyval) : gset string :=
  match obj with
  | AuditSecretInteger parties => list_to_set (name <$> parties)
  | SecretInteger attrs => _gather_parties (Operation attrs)
  | _ => ∅
  end.

(** [_update_parties]: the set comprehension over all stored objects. *)
Definition _update_parties : M unit :=
  data <~ get_data ;;
  set_parties (⋃ (_gather_parties <$> data)).

(** [_add_parties(item)] *)
Definition _add_parties (item : pyval) : M unit :=
  parties <~ get_parties_attr ;;
  set_parties (parties ∪ _gather_parties item).

(** [get_parties] *)
Definition get_parties (self : t) : gset string := _parties self.

(** [__setitem__(index, item)] *)
Definition __setitem__ (index : Z) (item : pyval) : M unit :=
  _check_type item ;;
  data <~ get_data ;;
  match subscript (length data) index with
  | Some k => set_data (<[k := item]> data)
  | None => raise IndexError
  end ;;
  _update_parties.

(** [__getitem__(index)] *)
Definition __getitem__ (index : Z) : M pyval :=
  data <~ get_data ;;
  match subscript (length data) index with
  | Some k => match data !! k with Some v => ret v | None => raise IndexError end
  | None => raise IndexError
  end.

(** [__delitem__(index)] *)
Definition __delitem__ (index : Z) : M unit :=
  data <~ get_data ;;
  match subscript (length data) index with
  | Some k => set_data (delete k data)
  | None => raise IndexError
  end ;;
  _update_parties.

(** [append(item)] *)
Definition append (item : pyval) : M unit :=
  _check_type item ;;
  data <~ get_data ;;
  set_data (data ++ [item]) ;;
  _add_parties item.

(** [insert(index, item)] *)
Definition insert (index : Z) (item : pyval) : M unit :=
  _check_type item ;;
  data <~ get_data ;;
  set_data (list_insert_at data index item) ;;
  _add_parties item.

(** What [extend] is given here: an object that can be iterated again and
    again (a list, a tuple, an array other than [self]), or a generator,
    which yields each pending item once. In both cases drawing an item does
    not itself raise. Two iterables are outside this type: the array
    itself, for which [self._data.extend(self)] walks the list it is
    growing and does not return, and an iterable whose own iteration
    raises. *)
Inductive iterable :=
| Sequence (items : list pyval)
| Generator (pending : list pyval).

(** The items a fresh [for] loop (or [list.extend]) over the object draws. *)
Definition to_yield (it : iterable) : list pyval :=
  match it with
  | Sequence items => items
  | Generator pending => pending
  end.

(** The object after a loop that left [rest] undrawn. *)
Definition after_loop (it : iterable) (rest : list pyval) : iterable :=
  match it with
  | Sequence items => Sequence items
  | Generator _ => Generator rest
  end.

(** [extend(iterable)]: the checking loop, then [self._data.extend]. The
    result carries the array and the iterable as the call leaves them. *)
Definition extend (it : iterable) (self : t) : result unit * t * iterable :=
  let '(r, self1, rest) :=
    for_in (λ item, _check_type item ;; _add_parties item) (to_yield it) self in
  let it1 := after_loop it rest in
  match r with
  | Raise e => (Raise e, self1, it1)
  | Ok _ =>
      (Ok tt, Build (_data self1 ++ to_yield it1) (_parties self1),
       after_loop it1 [])
  end.

(** [__init__( *args )]. The second test is a plain [if], so it looks at
    [args[0]] of whatever [args] is by then. A generator is drawn in full
    by [list(...)]. The result is the new object, or the exception that
    leaves the constructor. *)
Definition __init__ (args : list pyval) : result t :=
  let self := Build [] ∅ in
  let unpacked : result (list pyval) :=
    match args with
    | [a] =>
        let args1 := match a with PyList items => items | _ => args end in
        match args1 with
        | [] => Raise IndexError
        | PyGenerator pending :: _ => Ok pending
        | _ => Ok args1
        end
    | _ => Ok args
    end in
  match unpacked with
  | Raise e => Raise e
  | Ok items =>
      match for_in append items self with
      | (Ok _, self', _) => Ok self'
      | (Raise e, _, _) => Raise e
      end
  end.

(** [__add__(other)], for [other] an array. *)
Definition __add__ (self other : t) : result t :=
  __init__ [PyList (_data self ++ _data other)].


End NadaArray.

(** ** [sum_nada_array] *)

Section Arithmetic.

(** The secret value's own [+], which belongs to the DSL: it returns a
    value or raises. *)
Variable add : pyval → pyval → result pyval.

(** The loop over [argument[1:]]. *)
Fixpoint sum_loop (output : pyval) (tail : list pyval) : result pyval :=
  match tail with
  | [] => Ok output
  | e :: tail' =>
      if is_secret_int e then
        match add output e with
        | Ok output' => sum_loop output' tail'
        | Raise ex => Raise ex
        end
      else Raise TypeError
  end.

(** [sum_nada_array(argument)], for a list or the [_data] of an array. *)
Definition sum_nada_array (argument : list pyval) : result pyval :=
  match argument !! 0%nat with
  | None => Raise IndexError
  | Some output => sum_loop output (drop 1 argument)
  end.

End Arithmetic.

(** ** [serialize_input_array] *)

Section Audit.

(** [audit.SecretInteger(audit.Input(name, party=party))] belongs to the DSL.
    The object it builds is of class [audit.SecretInteger]; the [parties]
    list the DSL attaches to it is a parameter. *)
Variable audit_parties : string → Party → list Party.

Definition audit_input (input_name : string) (party : Party) : pyval :=
  AuditSecretInteger (audit_parties input_name party).

(** [serialize_input_array(arr, party, prefix)]: the constructor is handed
    one generator expression over [range(len(arr))]; the values in [arr] are
    not read. It returns the new array or the exception the constructor
    raises. *)
Definition serialize_input_array
    (arr : list Z) (party : Party) (prefix : string) : result NadaArray.t :=
  NadaArray.__init__
    [PyGenerator
       ((λ i, audit_input (String.append prefix (str_of_nat i)) party)
          <$> seq 0 (length arr))].

End Audit.

(** ** Specification-side definitions *)

(** The object with none of the six attributes. *)
Definition no_links : links node := Links None None None None None None.

(** Provenance resolution as the specification words it: an input gives its
    party's name if it has a party, a literal gives nothing, any other node
    gives the union of what the sub-nodes under its exposed roles give. *)
Fixpoint resolve (n : node) : gset string :=
  match n with
  | Input (Some p) _ => {[ name p ]}
  | Input None _ => ∅
  | Literal _ => ∅
  | Operation (Links i l r a0 a1 t) =>
      match i with Some c => resolve c | None => ∅ end
      ∪ match l with Some c => resolve c | None => ∅ end
      ∪ match r with Some c => resolve c | None => ∅ end
      ∪ match a0 with Some c => resolve c | None => ∅ end
      ∪ match a1 with Some c => resolve c | None => ∅ end
      ∪ match t with Some c => resolve c | None => ∅ end
  end.

(** What an exposed role contributes under a resolver [f]. *)
Definition through (f : node → gset string) (o : option node) : gset string :=
  match o with Some c => f c | None => ∅ end.

(** The union of the resolved provenance of the elements of a sequence. *)
Definition provenance (data : list pyval) : gset string :=
  ⋃ (NadaArray._gather_parties <$> data).

(** I1: every stored element is of an accepted class. *)
Definition homogeneous (self : NadaArray.t) : Prop :=
  Forall (λ e, is_secret_int e = true) (NadaArray._data self).

(** I2: the cached set is the provenance of the stored elements. *)
Definition consistent (self : NadaArray.t) : Prop :=
  NadaArray._parties self = provenance (NadaArray._data self).

(** The cached set names at least every party an element resolves to. *)
Definition covered (self : NadaArray.t) : Prop :=
  provenance (NadaArray._data self) ⊆ NadaArray._parties self.

(** The arrays obtained from the constructor by the mutating operations,
    each followed whether it returns or raises; [extend] is followed on
    sequences and on generators. *)
Inductive reachable : NadaArray.t → Prop :=
| reach_init args self :
    NadaArray.__init__ args = Ok self → reachable self
| reach_append self item r self' :
    reachable self → NadaArray.append item self = (r, self') → reachable self'
| reach_insert self index item r self' :
    reachable self → NadaArray.insert index item self = (r, self') →
    reachable self'
| reach_setitem self index item r self' :
    reachable self → NadaArray.__setitem__ index item self = (r, self') →
    reachable self'
| reach_delitem self index r self' :
    reachable self → NadaArray.__delitem__ index self = (r, self') →
    reachable self'
| reach_extend self it r self' it' :
    reachable self → NadaArray.extend it self = (r, self', it') →
    reachable self'.

(** The inputs a traversal can reach from a node: an input with a party
    owns that party's name; any object that is neither an input nor a
    literal owns what a sub-node under one of its six attributes owns. *)
Inductive owns : node → string → Prop :=
| owns_input p attrs : owns (Input (Some p) attrs) (name p)
| owns_inner c l r a0 a1 t q :
    owns c q → owns (Operation (Links (Some c) l r a0 a1 t)) q
| owns_left i c r a0 a1 t q :
    owns c q → owns (Operation (Links i (Some c) r a0 a1 t)) q
| owns_right i l c a0 a1 t q :
    owns c q → owns (Operation (Links i l (Some c) a0 a1 t)) q
| owns_arg_0 i l r c a1 t q :
    owns c q → owns (Operation (Links i l r (Some c) a1 t)) q
| owns_arg_1 i l r a0 c t q :
    owns c q → owns (Operation (Links i l r a0 (Some c) t)) q
| owns_this i l r a0 a1 c q :
    owns c q → owns (Operation (Links i l r a0 a1 (Some c))) q.

(** The left-to-right fold of [add] from a first element, stopping at the
    first addition that raises. *)
Definition fold_add (add : pyval → pyval → result pyval)
    (first : pyval) (rest : list pyval) : result pyval :=
  fold_left
    (λ acc e, match acc with Ok output => add output e | Raise ex => Raise ex end)
    rest (Ok first).




(** ** Sample values *)

Definition party_A : Party := {| name := "A" |}.
Definition party_B : Party := {| name := "B" |}.

(** A plain secret integer read from an input of [p]. *)
Definition plain_input (p : Party) : pyval :=
  SecretInteger (Links (Some (Input (Some p) no_links)) None None None None None).

(** An audited secret integer with [p] as its only party. *)
Definition audited (p : Party) : pyval := AuditSecretInteger [p].

Definition empty_array : NadaArray.t := NadaArray.Build [] ∅.

(** A value as a node of an expression graph. *)
Definition as_node (v : pyval) : node :=
  match v with
  | SecretInteger attrs => Operation attrs
  | _ => Literal no_links
  end.

(** An addition for the examples: the plain secret integer whose [inner] is
    an operation with the two operands as [left] and [right]. *)
Definition sample_add (a b : pyval) : result pyval :=
  Ok (SecretInteger
        (Links
           (Some (Operation
                    (Links None (Some (as_node a)) (Some (as_node b))
                       None None None)))
           None None None None None)).

(** The specification's deletion scenario: two elements derived from party
    A, one from party B. *)
Definition three_elements : NadaArray.t :=
  NadaArray.Build [audited party_A; plain_input party_A; audited party_B]
    {[ "A"%string; "B"%string ]}.

(** One element of party A under a cached set that also names B. *)
Definition stale_array : NadaArray.t :=
  NadaArray.Build [audited party_A] {[ "A"%string; "B"%string ]}.

(** The specification's summary scenario: two elements, parties b and a. *)
Definition two_parties : NadaArray.t :=
  NadaArray.Build
    [AuditSecretInteger [{| name := "b" |}]; AuditSecretInteger [{| name := "a" |}]]
    {[ "b"%string; "a"%string ]}.


(** ** The traversal *)

(** Induction over expression graphs: the operator case may assume the
    property of every sub-node under an exposed role. *)
Lemma node_links_ind (P : node → Prop) :
  (∀ party attrs, P (Input party attrs)) →
  (∀ attrs, P (Literal attrs)) →
  (∀ i l r a0 a1 t,
      from_option P True i → from_option P True l → from_option P True r →
      from_option P True a0 → from_option P True a1 → from_option P True t →
      P (Operation (Links i l r a0 a1 t))) →
  ∀ n, P n.
Proof.
  intros HInput HLiteral HOperation.
  fix IH 1.
  intros [party attrs | attrs | [i l r a0 a1 t]].
  - apply HInput.
  - apply HLiteral.
  - apply HOperation.
    + destruct i as [c|]; [apply IH | exact I].
    + destruct l as [c|]; [apply IH | exact I].
    + destruct r as [c|]; [apply IH | exact I].
    + destruct a0 as [c|]; [apply IH | exact I].
    + destruct a1 as [c|]; [apply IH | exact I].
    + destruct t as [c|]; [apply IH | exact I].
Qed.

(** One step of the attribute loop adds what the sub-node resolves to. *)
Lemma traverse_step (o : option node) (acc : gset string) :
  from_option (λ c, ∀ acc', traverse c acc' = acc' ∪ resolve c) True o →
  match o with Some c => traverse c acc | None => acc end
  = acc ∪ through resolve o.
Proof.
  intros IH. destruct o as [c|]; simpl in *.
  - apply IH.
  - set_solver.
Qed.

(** The accumulator only grows, by exactly the resolved set of the node. *)
Lemma traverse_resolve (n : node) :
  ∀ acc, traverse n acc = acc ∪ resolve n.
Proof.
  induction n as [party attrs | attrs | i l r a0 a1 t Hi Hl Hr H0 H1 Ht]
    using node_links_ind; intros acc; simpl.
  - destruct party as [p|]; set_solver.
  - set_solver.
  - rewrite (traverse_step i acc Hi), (traverse_step l _ Hl),
      (traverse_step r _ Hr), (traverse_step a0 _ H0),
      (traverse_step a1 _ H1), (traverse_step t _ Ht).
    unfold through. set_solver.
Qed.

Lemma gather_parties_resolve (n : node) : _gather_parties n = resolve n.
Proof. unfold _gather_parties. rewrite traverse_resolve. set_solver. Qed.

(** [C5] The resolver on an audited secret integer returns the names of its
    attached parties, with no traversal. On a plain secret integer it returns
    what the traversal of the expression graph from that object gathers,
    where: an input contributes its party's name when it has a party and
    nothing otherwise, whatever else it exposes; a literal contributes
    nothing and is not descended; any other node contributes the union of
    what the sub-nodes under its exposed roles (inner, left, right, arg_0,
    arg_1, this) contribute; and a node that exposes none of them
    contributes nothing. The traversal is a total function, so no case
    raises. *)
Theorem C5_provenance_resolution :
  (∀ parties,
      NadaArray._gather_parties (AuditSecretInteger parties)
      = list_to_set (name <$> parties))
  ∧ (∀ attrs,
      NadaArray._gather_parties (SecretInteger attrs)
      = _gather_parties (Operation attrs))
  ∧ (∀ n, _gather_parties n = resolve n)
  ∧ (∀ p attrs, _gather_parties (Input (Some p) attrs) = {[ name p ]})
  ∧ (∀ attrs, _gather_parties (Input None attrs) = ∅)
  ∧ (∀ attrs, _gather_parties (Literal attrs) = ∅)
  ∧ (∀ i l r a0 a1 t,
      _gather_parties (Operation (Links i l r a0 a1 t))
      = through _gather_parties i ∪ through _gather_parties l
        ∪ through _gather_parties r ∪ through _gather_parties a0
        ∪ through _gather_parties a1 ∪ through _gather_parties t)
  ∧ _gather_parties (Operation no_links) = ∅.
Proof.
  split_and!; try done.
  - apply gather_parties_resolve.
  - intros p attrs. rewrite gather_parties_resolve. done.
  - intros i l r a0 a1 t. rewrite gather_parties_resolve. simpl.
    destruct i, l, r, a0, a1, t; simpl;
      rewrite ?gather_parties_resolve; reflexivity.
Qed.

(** ** The type check and the provenance of a sequence *)

(** The check accepts exactly the two secret integer classes. *)
Lemma is_secret_int_spec (item : pyval) :
  is_secret_int item = true ↔
  (∃ attrs, item = SecretInteger attrs) ∨
  (∃ parties, item = AuditSecretInteger parties).
Proof.
  split.
  - destruct item; intros H; eauto;
      apply bool_decide_eq_true in H;
      repeat (apply elem_of_cons in H as [H|H]; [discriminate|]);
      by apply elem_of_nil in H.
  - by intros [[attrs ->]|[parties ->]].
Qed.

Lemma provenance_nil : provenance [] = ∅.
Proof. reflexivity. Qed.

Lemma provenance_cons (e : pyval) (data : list pyval) :
  provenance (e :: data) = NadaArray._gather_parties e ∪ provenance data.
Proof. reflexivity. Qed.

Lemma provenance_app (d1 d2 : list pyval) :
  provenance (d1 ++ d2) = provenance d1 ∪ provenance d2.
Proof. unfold provenance. by rewrite fmap_app, union_list_app_L. Qed.

Lemma provenance_snoc (data : list pyval) (e : pyval) :
  provenance (data ++ [e]) = provenance data ∪ NadaArray._gather_parties e.
Proof. rewrite provenance_app, provenance_cons, provenance_nil. set_solver. Qed.

Lemma provenance_insert_at (data : list pyval) (index : Z) (e : pyval) :
  provenance (list_insert_at data index e)
  = provenance data ∪ NadaArray._gather_parties e.
Proof.
  unfold list_insert_at.
  generalize (insert_position (length data) index); intros k.
  rewrite provenance_app, provenance_cons.
  rewrite <- (take_drop k data) at 3.
  rewrite provenance_app. set_solver.
Qed.

(** A name is in the provenance of a sequence exactly when some element
    resolves to it. *)
Lemma elem_of_provenance (p : string) (data : list pyval) :
  p ∈ provenance data ↔ ∃ e, e ∈ data ∧ p ∈ NadaArray._gather_parties e.
Proof.
  unfold provenance. rewrite elem_of_union_list. split.
  - intros (X & HX & Hp). apply list_elem_of_fmap in HX as (e & -> & He). eauto.
  - intros (e & He & Hp). exists (NadaArray._gather_parties e). split; [|done].
    apply list_elem_of_fmap. eauto.
Qed.

(** ** The methods, outcome by outcome *)

Lemma check_type_ok (item : pyval) (self : NadaArray.t) :
  is_secret_int item = true → NadaArray._check_type item self = (Ok tt, self).
Proof. intros H. unfold NadaArray._check_type. by rewrite H. Qed.

Lemma check_type_raises (item : pyval) (self : NadaArray.t) :
  is_secret_int item = false →
  NadaArray._check_type item self = (Raise TypeError, self).
Proof. intros H. unfold NadaArray._check_type. by rewrite H. Qed.

Lemma append_ok (item : pyval) (self : NadaArray.t) :
  is_secret_int item = true →
  NadaArray.append item self
  = (Ok tt,
     NadaArray.Build (NadaArray._data self ++ [item])
       (NadaArray._parties self ∪ NadaArray._gather_parties item)).
Proof.
  intros H. unfold NadaArray.append, NadaArray.bind.
  by rewrite check_type_ok.
Qed.

Lemma append_raises (item : pyval) (self : NadaArray.t) :
  is_secret_int item = false →
  NadaArray.append item self = (Raise TypeError, self).
Proof.
  intros H. unfold NadaArray.append, NadaArray.bind.
  by rewrite check_type_raises.
Qed.

Lemma insert_ok (index : Z) (item : pyval) (self : NadaArray.t) :
  is_secret_int item = true →
  NadaArray.insert index item self
  = (Ok tt,
     NadaArray.Build (list_insert_at (NadaArray._data self) index item)
       (NadaArray._parties self ∪ NadaArray._gather_parties item)).
Proof.
  intros H. unfold NadaArray.insert, NadaArray.bind.
  by rewrite check_type_ok.
Qed.

Lemma insert_raises (index : Z) (item : pyval) (self : NadaArray.t) :
  is_secret_int item = false →
  NadaArray.insert index item self = (Raise TypeError, self).
Proof.
  intros H. unfold NadaArray.insert, NadaArray.bind.
  by rewrite check_type_raises.
Qed.

(** [__setitem__] has three outcomes. *)
Lemma setitem_cases (index : Z) (item : pyval) (self : NadaArray.t) :
  NadaArray.__setitem__ index item self =
  if is_secret_int item then
    match subscript (length (NadaArray._data self)) index with
    | Some k =>
        (Ok tt,
         NadaArray.Build (<[k := item]> (NadaArray._data self))
           (provenance (<[k := item]> (NadaArray._data self))))
    | None => (Raise IndexError, self)
    end
  else (Raise TypeError, self).
Proof.
  unfold NadaArray.__setitem__, NadaArray.bind, NadaArray._check_type.
  destruct (is_secret_int item); [|done]. simpl.
  destruct (subscript _ _); [done|]. by destruct self.
Qed.

(** [__delitem__] has two. *)
Lemma delitem_cases (index : Z) (self : NadaArray.t) :
  NadaArray.__delitem__ index self =
  match subscript (length (NadaArray._data self)) index with
  | Some k =>
      (Ok tt,
       NadaArray.Build (delete k (NadaArray._data self))
         (provenance (delete k (NadaArray._data self))))
  | None => (Raise IndexError, self)
  end.
Proof.
  unfold NadaArray.__delitem__, NadaArray.bind. simpl.
  destruct (subscript _ _); [done|]. by destruct self.
Qed.

(** ** The loops *)

(** Equalities between party sets built from provenances. *)
Ltac solve_parties :=
  rewrite ?provenance_nil, ?provenance_cons, ?provenance_app; set_solver.

(** A sequence either passes the check throughout or has a first element
    that fails it. *)
Lemma first_rejected (items : list pyval) :
  Forall (λ e, is_secret_int e = true) items ∨
  ∃ pre bad post,
    items = pre ++ bad :: post ∧
    Forall (λ e, is_secret_int e = true) pre ∧ is_secret_int bad = false.
Proof.
  induction items as [|x items [IH | (pre & bad & post & -> & Hpre & Hbad)]].
  - left. constructor.
  - destruct (is_secret_int x) eqn:Hx.
    + left. by constructor.
    + right. exists [], x, items. by repeat split.
  - destruct (is_secret_int x) eqn:Hx.
    + right. exists (x :: pre), bad, post. repeat split; [|done]. by constructor.
    + right. exists [], x, (pre ++ bad :: post). by repeat split.
Qed.

(** The checking loop of [extend] on items that all pass: the data is not
    touched, the cached set has taken in every item. *)
Lemma extend_loop_ok (items : list pyval) :
  ∀ self,
    Forall (λ e, is_secret_int e = true) items →
    NadaArray.for_in
      (λ item, NadaArray.bind (NadaArray._check_type item)
                 (λ _, NadaArray._add_parties item)) items self
    = (Ok tt,
       NadaArray.Build (NadaArray._data self)
         (NadaArray._parties self ∪ provenance items), []).
Proof.
  induction items as [|x items IH]; intros [data parties] Hall; simpl.
  - do 2 f_equal. f_equal. solve_parties.
  - inversion Hall as [|? ? Hx Hrest]; subst.
    unfold NadaArray.bind at 1. rewrite check_type_ok by done. simpl.
    rewrite IH by done. simpl. do 2 f_equal. f_equal.
    solve_parties.
Qed.

(** The same loop stopped by the first item that fails: the items before it
    have already been taken into the cached set. *)
Lemma extend_loop_raises (pre : list pyval) (bad : pyval) (post : list pyval) :
  ∀ self,
    Forall (λ e, is_secret_int e = true) pre →
    is_secret_int bad = false →
    NadaArray.for_in
      (λ item, NadaArray.bind (NadaArray._check_type item)
                 (λ _, NadaArray._add_parties item)) (pre ++ bad :: post) self
    = (Raise TypeError,
       NadaArray.Build (NadaArray._data self)
         (NadaArray._parties self ∪ provenance pre), post).
Proof.
  induction pre as [|x pre IH]; intros [data parties] Hall Hbad; simpl.
  - unfold NadaArray.bind. rewrite check_type_raises by done.
    do 2 f_equal. f_equal. solve_parties.
  - inversion Hall as [|? ? Hx Hrest]; subst.
    unfold NadaArray.bind at 1. rewrite check_type_ok by done. simpl.
    rewrite IH by done. simpl. do 2 f_equal. f_equal.
    solve_parties.
Qed.

(** The constructor's loop of [append] calls. *)
Lemma append_loop_ok (items : list pyval) :
  ∀ self,
    Forall (λ e, is_secret_int e = true) items →
    NadaArray.for_in NadaArray.append items self
    = (Ok tt,
       NadaArray.Build (NadaArray._data self ++ items)
         (NadaArray._parties self ∪ provenance items), []).
Proof.
  induction items as [|x items IH]; intros [data parties] Hall; simpl.
  - rewrite app_nil_r. do 2 f_equal. f_equal. solve_parties.
  - inversion Hall as [|? ? Hx Hrest]; subst.
    rewrite append_ok by done. rewrite IH by done. simpl.
    rewrite <- app_assoc. simpl. do 2 f_equal. f_equal.
    solve_parties.
Qed.

Lemma append_loop_raises (pre : list pyval) (bad : pyval) (post : list pyval) :
  ∀ self,
    Forall (λ e, is_secret_int e = true) pre →
    is_secret_int bad = false →
    fst (fst (NadaArray.for_in NadaArray.append (pre ++ bad :: post) self))
    = Raise TypeError.
Proof.
  induction pre as [|x pre IH]; intros self Hall Hbad; simpl.
  - by rewrite append_raises.
  - inversion Hall as [|? ? Hx Hrest]; subst.
    rewrite append_ok by done. by apply IH.
Qed.

(** What the constructor builds, whenever it builds something. *)
Lemma init_ok_inv (args : list pyval) (self : NadaArray.t) :
  NadaArray.__init__ args = Ok self →
  ∃ items,
    Forall (λ e, is_secret_int e = true) items ∧
    self = NadaArray.Build items (provenance items).
Proof.
  unfold NadaArray.__init__.
  match goal with |- match ?u with _ => _ end = _ → _ => destruct u as [items|e] end;
    [|discriminate].
  destruct (first_rejected items) as [Hall | (pre & bad & post & -> & Hpre & Hbad)].
  - rewrite append_loop_ok by done. simpl. intros [= <-].
    exists items. split; [done|]. f_equal. solve_parties.
  - pose proof (append_loop_raises pre bad post (NadaArray.Build [] ∅) Hpre Hbad) as Hr.
    destruct (NadaArray.for_in _ _ _) as [[[|e] self'] rest]; simpl in Hr;
      [discriminate|]. discriminate.
Qed.

(** The constructor on a non-empty list of accepted values. *)
Lemma init_list_ok (items : list pyval) :
  items ≠ [] →
  Forall (λ e, is_secret_int e = true) items →
  NadaArray.__init__ [PyList items]
  = Ok (NadaArray.Build items (provenance items)).
Proof.
  intros Hne Hall. unfold NadaArray.__init__.
  destruct items as [|x items]; [done|].
  assert (Hx : is_secret_int x = true) by (by inversion Hall).
  destruct x; try discriminate Hx;
    rewrite append_loop_ok by done; simpl; do 2 f_equal; solve_parties.
Qed.

(** [extend] on a sequence whose items all pass. *)
Lemma extend_sequence_ok (items : list pyval) (self : NadaArray.t) :
  Forall (λ e, is_secret_int e = true) items →
  NadaArray.extend (NadaArray.Sequence items) self
  = (Ok tt,
     NadaArray.Build (NadaArray._data self ++ items)
       (NadaArray._parties self ∪ provenance items),
     NadaArray.Sequence items).
Proof.
  intros Hall. unfold NadaArray.extend. simpl.
  by rewrite extend_loop_ok.
Qed.

(** [extend] on a sequence with a first item that fails the check: the call
    raises, the data is as before, and the cached set has already taken in
    the items in front of the failing one. *)
Lemma extend_sequence_raises
    (pre : list pyval) (bad : pyval) (post : list pyval) (self : NadaArray.t) :
  Forall (λ e, is_secret_int e = true) pre →
  is_secret_int bad = false →
  NadaArray.extend (NadaArray.Sequence (pre ++ bad :: post)) self
  = (Raise TypeError,
     NadaArray.Build (NadaArray._data self)
       (NadaArray._parties self ∪ provenance pre),
     NadaArray.Sequence (pre ++ bad :: post)).
Proof.
  intros Hpre Hbad. unfold NadaArray.extend. simpl.
  by rewrite extend_loop_raises.
Qed.

(** ** Invariants of reachable arrays *)

Lemma homogeneous_insert_at (data : list pyval) (index : Z) (item : pyval) :
  Forall (λ e, is_secret_int e = true) data →
  is_secret_int item = true →
  Forall (λ e, is_secret_int e = true) (list_insert_at data index item).
Proof.
  intros Hdata Hitem. unfold list_insert_at.
  apply Forall_app. split; [by apply Forall_take|].
  constructor; [done | by apply Forall_drop].
Qed.

(** Every reachable array satisfies I1, and its cached set names at least
    the parties of its elements. *)
Lemma reachable_invariants (self : NadaArray.t) :
  reachable self → homogeneous self ∧ covered self.
Proof.
  unfold homogeneous, covered.
  induction 1 as
    [ args self Hinit
    | self item r self' _ [IH1 IH2] Hop
    | self index item r self' _ [IH1 IH2] Hop
    | self index item r self' _ [IH1 IH2] Hop
    | self index r self' _ [IH1 IH2] Hop
    | self it r self' it' _ [IH1 IH2] Hop ].
  - apply init_ok_inv in Hinit as (items & Hall & ->). by split.
  - destruct (is_secret_int item) eqn:Hitem.
    + rewrite append_ok in Hop by done. injection Hop as <- <-. simpl. split.
      * apply Forall_app. split; [done | by constructor].
      * rewrite provenance_snoc. set_solver.
    + rewrite append_raises in Hop by done. by injection Hop as <- <-.
  - destruct (is_secret_int item) eqn:Hitem.
    + rewrite insert_ok in Hop by done. injection Hop as <- <-. simpl. split.
      * by apply homogeneous_insert_at.
      * rewrite provenance_insert_at. set_solver.
    + rewrite insert_raises in Hop by done. by injection Hop as <- <-.
  - rewrite setitem_cases in Hop.
    destruct (is_secret_int item) eqn:Hitem;
      [destruct (subscript _ _) as [k|]|]; injection Hop as <- <-; simpl;
      try done.
    split; [by apply Forall_insert | done].
  - rewrite delitem_cases in Hop.
    destruct (subscript _ _) as [k|]; injection Hop as <- <-; simpl; try done.
    split; [by apply Forall_delete | done].
  - unfold NadaArray.extend in Hop.
    destruct (first_rejected (NadaArray.to_yield it))
      as [Hall | (pre & bad & post & Heq & Hpre & Hbad)].
    + rewrite extend_loop_ok in Hop by done. injection Hop as <- <- <-.
      simpl. destruct it as [items | pending]; simpl in *.
      * split; [apply Forall_app; by split|].
        rewrite provenance_app. set_solver.
      * rewrite app_nil_r. split; [done | set_solver].
    + rewrite Heq, extend_loop_raises in Hop by done.
      injection Hop as <- <- <-. simpl. split; [done | set_solver].
Qed.

(** From an array whose cached set is consistent with its elements,
    [append], [insert], indexed replacement and indexed deletion lead to a
    consistent array, whether they return or raise, and so does [extend]
    when it returns on a sequence. *)
Lemma consistency_kept
    (self self' : NadaArray.t) (index : Z) (item : pyval)
    (items : list pyval) (r : result unit) (it' : NadaArray.iterable) :
  consistent self →
  (NadaArray.append item self = (r, self') → consistent self')
  ∧ (NadaArray.insert index item self = (r, self') → consistent self')
  ∧ (NadaArray.__setitem__ index item self = (r, self') → consistent self')
  ∧ (NadaArray.__delitem__ index self = (r, self') → consistent self')
  ∧ (NadaArray.extend (NadaArray.Sequence items) self = (Ok tt, self', it') →
     consistent self').
Proof.
  unfold consistent. intros Hcons. split_and!; intros Hop.
  - destruct (is_secret_int item) eqn:Hitem.
    + rewrite append_ok in Hop by done. injection Hop as <- <-. simpl.
      rewrite provenance_snoc. by rewrite Hcons.
    + rewrite append_raises in Hop by done. by injection Hop as <- <-.
  - destruct (is_secret_int item) eqn:Hitem.
    + rewrite insert_ok in Hop by done. injection Hop as <- <-. simpl.
      rewrite provenance_insert_at. by rewrite Hcons.
    + rewrite insert_raises in Hop by done. by injection Hop as <- <-.
  - rewrite setitem_cases in Hop.
    destruct (is_secret_int item) eqn:Hitem;
      [destruct (subscript _ _) as [k|]|]; by injection Hop as <- <-.
  - rewrite delitem_cases in Hop.
    destruct (subscript _ _) as [k|]; by injection Hop as <- <-.
  - destruct (first_rejected items)
      as [Hall | (pre & bad & post & -> & Hpre & Hbad)].
    + rewrite extend_sequence_ok in Hop by done. injection Hop as <- <-.
      simpl. rewrite provenance_app. by rewrite Hcons.
    + rewrite extend_sequence_raises in Hop by done. discriminate Hop.
Qed.

Lemma three_elements_reachable : reachable three_elements.
Proof.
  apply (reach_init [audited party_A; plain_input party_A; audited party_B]).
  vm_compute. reflexivity.
Qed.

(** [stale_array] is what a raising [extend] followed by an [append] leaves
    of the empty array. *)
Lemma stale_array_reachable : reachable stale_array.
Proof.
  apply (reach_append (NadaArray.Build [] {[ "B"%string ]})
           (audited party_A) (Ok tt)).
  - apply (reach_extend (NadaArray.Build [] ∅)
             (NadaArray.Sequence [audited party_B; PyInt 5])
             (Raise TypeError) _
             (NadaArray.Sequence [audited party_B; PyInt 5])).
    + by apply (reach_init []).
    + vm_compute. reflexivity.
  - vm_compute. reflexivity.
Qed.

(** [C1] The specification has the cached party set equal, after every
    mutating operation, the union of the resolved provenance of the current
    elements. The code does not keep this. [extend] on the list made of an
    audited value of party B followed by the integer 5 raises [TypeError]
    and leaves an array without element whose cached set names B. The
    [append] of an audited value of party A that follows returns: the array
    then holds that one element, which resolves to A alone, and its cached
    set is {A, B}. *)
Theorem C1_stale_party_after_raising_extend :
  NadaArray.extend (NadaArray.Sequence [audited party_B; PyInt 5]) empty_array
  = (Raise TypeError,
     NadaArray.Build [] {[ "B"%string ]},
     NadaArray.Sequence [audited party_B; PyInt 5])
  ∧ NadaArray.append (audited party_A) (NadaArray.Build [] {[ "B"%string ]})
    = (Ok tt, stale_array)
  ∧ reachable stale_array
  ∧ provenance (NadaArray._data stale_array) = {[ "A"%string ]}
  ∧ NadaArray.get_parties stale_array
    ≠ provenance (NadaArray._data stale_array).
Proof.
  split_and!.
  - vm_compute. reflexivity.
  - vm_compute. reflexivity.
  - apply stale_array_reachable.
  - vm_compute. reflexivity.
  - intros Heq.
    assert (Hin : "B"%string ∈ provenance (NadaArray._data stale_array)).
    { rewrite <- Heq. unfold stale_array, NadaArray.get_parties. simpl.
      set_solver. }
    vm_compute in Hin. discriminate Hin.
Qed.

(** Deleting the B-derived element of [three_elements] leaves exactly A. *)
Example delete_only_B_element :
  NadaArray.__delitem__ 2 three_elements
  = (Ok tt,
     NadaArray.Build [audited party_A; plain_input party_A] {[ "A"%string ]}).
Proof. vm_compute. reflexivity. Qed.

(** ** [append] *)

(** [C2] If the item's class is not one of the two accepted secret integer
    classes, [append] raises [TypeError] and leaves the data and the cached
    party set as they were. If it is, [append] returns, the length grows by
    exactly one, the item is the last element behind the old elements, and
    the cached set is the old set united with the item's resolved
    provenance. *)
Theorem C2_append (self : NadaArray.t) (item : pyval) :
  (is_secret_int item = false →
   NadaArray.append item self = (Raise TypeError, self))
  ∧ (is_secret_int item = true →
     ∃ self',
       NadaArray.append item self = (Ok tt, self')
       ∧ NadaArray.__len__ self' = S (NadaArray.__len__ self)
       ∧ NadaArray._data self' = NadaArray._data self ++ [item]
       ∧ last (NadaArray._data self') = Some item
       ∧ NadaArray.get_parties self'
         = NadaArray.get_parties self ∪ NadaArray._gather_parties item).
Proof.
  split; intros Hitem.
  - by apply append_raises.
  - eexists. split; [by apply append_ok|]. simpl.
    unfold NadaArray.__len__. simpl.
    rewrite length_app, last_snoc. simpl. split_and!; [lia|done..].
Qed.

Lemma C2_append_witness :
  NadaArray.append (PyInt 5) three_elements = (Raise TypeError, three_elements)
  ∧ ∃ self',
      NadaArray.append (plain_input party_B) empty_array = (Ok tt, self')
      ∧ NadaArray.__len__ self' = S (NadaArray.__len__ empty_array)
      ∧ NadaArray._data self' = NadaArray._data empty_array ++ [plain_input party_B]
      ∧ last (NadaArray._data self') = Some (plain_input party_B)
      ∧ NadaArray.get_parties self'
        = NadaArray.get_parties empty_array
          ∪ NadaArray._gather_parties (plain_input party_B).
Proof.
  split.
  - apply (proj1 (C2_append three_elements (PyInt 5))). reflexivity.
  - apply (proj2 (C2_append empty_array (plain_input party_B))). reflexivity.
Defined.

(** ** [extend] *)

(** [C9] [extend] called with a generator of accepted values returns without
    error; the checking loop has drawn the generator dry, so the data gains
    no element and the length does not change, yet the cached party set has
    taken in the resolved parties of every generated value. *)
Theorem C9_extend_generator (self : NadaArray.t) (pending : list pyval) :
  Forall (λ e, is_secret_int e = true) pending →
  ∃ self',
    NadaArray.extend (NadaArray.Generator pending) self
    = (Ok tt, self', NadaArray.Generator [])
    ∧ NadaArray._data self' = NadaArray._data self
    ∧ NadaArray.__len__ self' = NadaArray.__len__ self
    ∧ NadaArray.get_parties self'
      = NadaArray.get_parties self ∪ provenance pending.
Proof.
  intros Hall. unfold NadaArray.extend. simpl.
  rewrite extend_loop_ok by done. simpl.
  eexists. split; [reflexivity|]. simpl.
  unfold NadaArray.__len__. simpl. by rewrite app_nil_r.
Qed.

Lemma C9_extend_generator_witness :
  ∃ self',
    NadaArray.extend (NadaArray.Generator [audited party_B]) empty_array
    = (Ok tt, self', NadaArray.Generator [])
    ∧ NadaArray._data self' = NadaArray._data empty_array
    ∧ NadaArray.__len__ self' = NadaArray.__len__ empty_array
    ∧ NadaArray.get_parties self'
      = NadaArray.get_parties empty_array ∪ provenance [audited party_B].
Proof.
  apply (C9_extend_generator empty_array [audited party_B]).
  repeat constructor.
Defined.

(** The array after such a call holds no element and yet names party B. *)
Example extend_generator_names_absent_party :
  NadaArray.extend (NadaArray.Generator [audited party_B]) empty_array
  = (Ok tt, NadaArray.Build [] {[ "B"%string ]}, NadaArray.Generator []).
Proof. vm_compute. reflexivity. Qed.

(** [C3] The specification has a failing [extend] leave the array as it
    was. The code does not: on the batch made of an audited value of party B
    followed by the integer 5, [extend] raises [TypeError] and keeps the data
    unchanged, but the cached party set has gained B, so the array differs
    from what it was before the call. *)
Theorem C3_extend_failure_changes_parties :
  NadaArray.extend (NadaArray.Sequence [audited party_B; PyInt 5]) empty_array
  = (Raise TypeError,
     NadaArray.Build [] {[ "B"%string ]},
     NadaArray.Sequence [audited party_B; PyInt 5])
  ∧ NadaArray.Build [] {[ "B"%string ]} ≠ empty_array.
Proof.
  split.
  - etrans.
    + apply (extend_sequence_raises [audited party_B] (PyInt 5) [] empty_array);
        by repeat constructor.
    + vm_compute. reflexivity.
  - intros Heq. apply (f_equal NadaArray._parties) in Heq. simpl in Heq.
    assert (Hin : "B"%string ∈ (∅ : gset string)) by (rewrite <- Heq; set_solver).
    set_solver.
Qed.

(** ** The constructor *)

(** [C10] A single constructor argument that is neither a list nor a
    generator is not unpacked: it is the one candidate element, so the
    constructor builds the one-element array when the argument is itself an
    accepted value and raises [TypeError] otherwise. A tuple is such an
    argument, whatever it holds: no array is built from it. A non-empty list
    of accepted values and a generator of accepted values are unpacked into
    their items. *)
Theorem C10_single_argument :
  (∀ a, type a ≠ TList → type a ≠ TGenerator → is_secret_int a = true →
        NadaArray.__init__ [a]
        = Ok (NadaArray.Build [a] (NadaArray._gather_parties a)))
  ∧ (∀ a, type a ≠ TList → type a ≠ TGenerator → is_secret_int a = false →
          NadaArray.__init__ [a] = Raise TypeError)
  ∧ (∀ items, NadaArray.__init__ [PyTuple items] = Raise TypeError)
  ∧ (∀ items, items ≠ [] → Forall (λ e, is_secret_int e = true) items →
              NadaArray.__init__ [PyList items]
              = Ok (NadaArray.Build items (provenance items)))
  ∧ (∀ pending, Forall (λ e, is_secret_int e = true) pending →
                NadaArray.__init__ [PyGenerator pending]
                = Ok (NadaArray.Build pending (provenance pending))).
Proof.
  split_and!.
  - intros a Hlist Hgen Ha. unfold NadaArray.__init__.
    destruct a; try done; simpl; do 2 f_equal; solve_parties.
  - intros a Hlist Hgen Ha. unfold NadaArray.__init__.
    destruct a; try done.
  - done.
  - apply init_list_ok.
  - intros pending Hall. unfold NadaArray.__init__.
    rewrite append_loop_ok by done. simpl. do 2 f_equal. solve_parties.
Qed.

Lemma C10_single_argument_witness :
  NadaArray.__init__ [audited party_A]
  = Ok (NadaArray.Build [audited party_A]
          (NadaArray._gather_parties (audited party_A)))
  ∧ NadaArray.__init__ [PyTuple [audited party_A; audited party_B]]
    = Raise TypeError
  ∧ NadaArray.__init__ [PyList [audited party_A; audited party_B]]
    = Ok (NadaArray.Build [audited party_A; audited party_B]
            (provenance [audited party_A; audited party_B])).
Proof.
  destruct C10_single_argument as (Hone & Hrej & Htuple & Hlist & Hgen).
  split_and!.
  - apply Hone; [discriminate | discriminate | reflexivity].
  - apply Hrej; [discriminate | discriminate | reflexivity].
  - apply Hlist; [discriminate | repeat constructor].
Defined.

(** ** [sum_nada_array] *)

Section SumFacts.

Variable add : pyval → pyval → result pyval.

(** Once an addition has raised, the fold keeps that exception. *)
Lemma fold_raise (ex : exn) (rest : list pyval) :
  fold_left
    (λ acc e, match acc with Ok output => add output e | Raise ex' => Raise ex' end)
    rest (Raise ex)
  = Raise ex.
Proof. induction rest as [|e rest IH]; [done | apply IH]. Qed.

Lemma fold_add_cons (first e : pyval) (rest : list pyval) :
  fold_add add first (e :: rest)
  = match add first e with
    | Ok output => fold_add add output rest
    | Raise ex => Raise ex
    end.
Proof.
  unfold fold_add. simpl. destruct (add first e); [done | apply fold_raise].
Qed.

(** On a tail of accepted values the loop is the fold. *)
Lemma sum_loop_fold (rest : list pyval) :
  ∀ output,
    Forall (λ e, is_secret_int e = true) rest →
    sum_loop add output rest = fold_add add output rest.
Proof.
  induction rest as [|e rest IH]; intros output Hall; [done|].
  inversion Hall as [|? ? He Hrest]; subst.
  rewrite fold_add_cons. simpl. rewrite He.
  destruct (add output e); [by apply IH | done].
Qed.

(** The loop stops with [TypeError] at the first value that fails the check,
    when the additions before it went through. *)
Lemma sum_loop_rejects (pre : list pyval) (bad : pyval) (post : list pyval) :
  ∀ first output,
    Forall (λ e, is_secret_int e = true) pre →
    is_secret_int bad = false →
    fold_add add first pre = Ok output →
    sum_loop add first (pre ++ bad :: post) = Raise TypeError.
Proof.
  induction pre as [|e pre IH]; intros first output Hall Hbad Hfold; simpl.
  - by rewrite Hbad.
  - inversion Hall as [|? ? He Hrest]; subst. rewrite He.
    rewrite fold_add_cons in Hfold.
    destruct (add first e) as [output'|ex]; [by eapply IH | done].
Qed.

End SumFacts.

(** [C4] On the empty sequence [sum_nada_array] raises [IndexError]. On a
    non-empty sequence whose elements from index 1 on are accepted it returns
    the left-to-right fold of the values' own addition from the first
    element, so that on three elements it is (s1 + s2) + s3. The first
    element is never checked: the fold is returned whatever its class, and a
    one-element sequence returns that element. An element from index 1 on
    that is not accepted raises [TypeError] once the loop reaches it. *)
Theorem C4_sum (add : pyval → pyval → result pyval) :
  sum_nada_array add [] = Raise IndexError
  ∧ (∀ first rest,
       Forall (λ e, is_secret_int e = true) rest →
       sum_nada_array add (first :: rest) = fold_add add first rest)
  ∧ (∀ s1 s2 s3 s12 s123,
       is_secret_int s2 = true → is_secret_int s3 = true →
       add s1 s2 = Ok s12 → add s12 s3 = Ok s123 →
       sum_nada_array add [s1; s2; s3] = Ok s123)
  ∧ (∀ first, sum_nada_array add [first] = Ok first)
  ∧ (∀ first pre bad post output,
       Forall (λ e, is_secret_int e = true) pre →
       is_secret_int bad = false →
       fold_add add first pre = Ok output →
       sum_nada_array add (first :: pre ++ bad :: post) = Raise TypeError).
Proof.
  split_and!.
  - done.
  - intros first rest Hall. unfold sum_nada_array. simpl.
    rewrite drop_0. by apply sum_loop_fold.
  - intros s1 s2 s3 s12 s123 H2 H3 H12 H123.
    unfold sum_nada_array. simpl. by rewrite H2, H12, H3, H123.
  - done.
  - intros first pre bad post output Hall Hbad Hfold.
    unfold sum_nada_array. simpl. rewrite drop_0.
    by eapply sum_loop_rejects.
Qed.

Lemma C4_sum_witness :
  sum_nada_array sample_add
    [PyInt 1; plain_input party_A; audited party_B]
  = fold_add sample_add (PyInt 1) [plain_input party_A; audited party_B]
  ∧ sum_nada_array sample_add
      (plain_input party_A :: [audited party_B] ++ PyInt 7 :: [audited party_A])
    = Raise TypeError.
Proof.
  destruct (C4_sum sample_add) as (_ & Hfold & _ & _ & Hrej).
  split.
  - apply Hfold. repeat constructor.
  - eapply Hrej; [repeat constructor | reflexivity | reflexivity].
Defined.

(** ** [insert] *)

(** Where [list.insert] puts the new element. *)
Lemma insert_position_cases (len : nat) (i : Z) :
  (insert_position len i <= len)%nat
  ∧ (0 <= i <= Z.of_nat len → insert_position len i = Z.to_nat i)
  ∧ (Z.of_nat len <= i → insert_position len i = len)
  ∧ (- Z.of_nat len <= i < 0 → insert_position len i = Z.to_nat (i + Z.of_nat len))
  ∧ (i < - Z.of_nat len → insert_position len i = 0%nat).
Proof.
  unfold insert_position. cbv zeta.
  destruct (Z.ltb_spec i 0) as [Hi|Hi].
  - destruct (Z.ltb_spec (i + Z.of_nat len) 0) as [Hw|Hw];
      [destruct (Z.ltb_spec (Z.of_nat len) 0)
      |destruct (Z.ltb_spec (Z.of_nat len) (i + Z.of_nat len))];
      split_and!; intros; lia.
  - destruct (Z.ltb_spec i 0); [lia|].
    destruct (Z.ltb_spec (Z.of_nat len) i); split_and!; intros; lia.
Qed.

(** The list after [l.insert(i, x)], by where [i] lies. *)
Lemma list_insert_at_cases {A} (l : list A) (i : Z) (x : A) :
  length (list_insert_at l i x) = S (length l)
  ∧ (0 <= i <= Z.of_nat (length l) →
     list_insert_at l i x = take (Z.to_nat i) l ++ x :: drop (Z.to_nat i) l
     ∧ list_insert_at l i x !! Z.to_nat i = Some x)
  ∧ (Z.of_nat (length l) <= i → list_insert_at l i x = l ++ [x])
  ∧ (- Z.of_nat (length l) <= i < 0 →
     list_insert_at l i x
     = take (Z.to_nat (i + Z.of_nat (length l))) l
       ++ x :: drop (Z.to_nat (i + Z.of_nat (length l))) l)
  ∧ (i < - Z.of_nat (length l) → list_insert_at l i x = x :: l).
Proof.
  unfold list_insert_at.
  destruct (insert_position_cases (length l) i)
    as (Hle & Hin & Hhigh & Hneg & Hlow).
  split_and!.
  - rewrite length_app. simpl. rewrite length_take, length_drop. lia.
  - intros Hrange. rewrite Hin by done. split; [done|].
    rewrite lookup_app_r; rewrite length_take; [|lia].
    replace (Z.to_nat i - Z.to_nat i `min` length l)%nat with 0%nat by lia.
    done.
  - intros Hrange. rewrite Hhigh by done.
    by rewrite take_ge, drop_ge by lia.
  - intros Hrange. by rewrite Hneg.
  - intros Hrange. rewrite Hlow by done. by rewrite take_0, drop_0.
Qed.

(** [C6] The specification has [insert] fail with an index error for an
    index outside [0 .. len]. It does not: on the empty array, inserting at index 5
    returns and the item is stored. *)
Lemma C6_insert_out_of_range_returns :
  NadaArray.insert 5 (audited party_A) empty_array
  = (Ok tt, NadaArray.Build [audited party_A] {[ "A"%string ]})
  ∧ fst (NadaArray.insert 5 (audited party_A) empty_array) ≠ Raise IndexError.
Proof. split; [vm_compute; reflexivity | discriminate]. Qed.

(** [C6], amended. For an accepted item [insert] returns for every index
    that fits a machine index: it never fails with an index error. The
    length grows by one and the item's resolved provenance is united into
    the cached set. For an index in
    [0 .. len] the item is put at that position, the elements from there on
    moving one place up, and [index = len] appends at the end. An index
    above [len] appends at the end as well; a negative index counts from the
    end, and one below [-len] puts the item in front. *)
Theorem C6_insert (self : NadaArray.t) (index : Z) (item : pyval) :
  is_secret_int item = true →
  fits_ssize_t index →
  let n := NadaArray.__len__ self in
  let data := NadaArray._data self in
  ∃ self',
    NadaArray.insert index item self = (Ok tt, self')
    ∧ NadaArray.__len__ self' = S n
    ∧ NadaArray.get_parties self'
      = NadaArray.get_parties self ∪ NadaArray._gather_parties item
    ∧ (0 <= index <= Z.of_nat n →
       NadaArray._data self'
       = take (Z.to_nat index) data ++ item :: drop (Z.to_nat index) data
       ∧ NadaArray._data self' !! Z.to_nat index = Some item)
    ∧ (Z.of_nat n <= index → NadaArray._data self' = data ++ [item])
    ∧ (- Z.of_nat n <= index < 0 →
       NadaArray._data self'
       = take (Z.to_nat (index + Z.of_nat n)) data
         ++ item :: drop (Z.to_nat (index + Z.of_nat n)) data)
    ∧ (index < - Z.of_nat n → NadaArray._data self' = item :: data).
Proof.
  intros Hitem _ n data. eexists. split; [by apply insert_ok|].
  subst n data. unfold NadaArray.__len__, NadaArray.get_parties. simpl.
  destruct (list_insert_at_cases (NadaArray._data self) index item)
    as (Hlen & Hin & Hhigh & Hneg & Hlow).
  split_and!; done.
Qed.

Lemma C6_insert_witness :
  ∃ self',
    NadaArray.insert 1 (audited party_B) three_elements = (Ok tt, self')
    ∧ NadaArray.__len__ self' = 4%nat
    ∧ NadaArray._data self' !! 1%nat = Some (audited party_B).
Proof.
  assert (Hfits : fits_ssize_t 1) by (unfold fits_ssize_t; lia).
  destruct (C6_insert three_elements 1 (audited party_B) eq_refl Hfits)
    as (self' & Hrun & Hlen & _ & Hmid & _).
  exists self'. split_and!; [exact Hrun | exact Hlen |].
  apply Hmid. vm_compute. split; discriminate.
Defined.

(** ** The order on strings *)

Lemma str_le_nil_l (s : string) : str_le EmptyString s.
Proof. by destruct s. Qed.

Lemma str_le_cons (c1 c2 : ascii) (s1 s2 : string) :
  str_le (String c1 s1) (String c2 s2) ↔
  Ascii.compare c1 c2 = Lt ∨ (c1 = c2 ∧ str_le s1 s2).
Proof.
  unfold str_le, String.leb. simpl.
  destruct (Ascii.compare c1 c2) eqn:Hc.
  - apply Ascii.compare_eq_iff in Hc as ->. naive_solver.
  - naive_solver.
  - split; [done|]. intros [?|[-> _]]; [done|].
    unfold Ascii.compare in Hc. by rewrite N.compare_refl in Hc.
Qed.

Lemma ascii_compare_lt_trans (a b c : ascii) :
  Ascii.compare a b = Lt → Ascii.compare b c = Lt → Ascii.compare a c = Lt.
Proof.
  unfold Ascii.compare. rewrite !N.compare_lt_iff. lia.
Qed.

#[global] Instance str_le_total : Total str_le.
Proof. intros s1 s2. apply String.leb_total. Qed.

#[global] Instance str_le_antisymm : AntiSymm (=) str_le.
Proof. intros s1 s2. apply String.leb_antisym. Qed.

#[global] Instance str_le_trans : Transitive str_le.
Proof.
  intros s1. induction s1 as [|c1 s1 IH]; intros s2 s3 H12 H23.
  - apply str_le_nil_l.
  - destruct s2 as [|c2 s2]; [done|]. destruct s3 as [|c3 s3]; [done|].
    apply str_le_cons in H12, H23. apply str_le_cons.
    destruct H12 as [H12|[-> H12]], H23 as [H23|[-> H23]]; eauto.
    left. by eapply ascii_compare_lt_trans.
Qed.








(** ** Concatenation *)

Lemma two_parties_reachable : reachable two_parties.
Proof.
  apply (reach_init
           [AuditSecretInteger [{| name := "b" |}];
            AuditSecretInteger [{| name := "a" |}]]).
  vm_compute. reflexivity.
Qed.

Lemma empty_array_reachable : reachable empty_array.
Proof. by apply (reach_init []). Qed.

(** Concatenation of two arrays that satisfy I1 and I2 and are not both
    empty: a new array holding the receiver's elements followed by the other
    operand's, with the union of the two cached sets. *)
Lemma add_concatenates (a b : NadaArray.t) :
  homogeneous a → homogeneous b → consistent a → consistent b →
  NadaArray._data a ++ NadaArray._data b ≠ [] →
  NadaArray.__add__ a b
  = Ok (NadaArray.Build (NadaArray._data a ++ NadaArray._data b)
          (NadaArray.get_parties a ∪ NadaArray.get_parties b)).
Proof.
  unfold homogeneous, consistent, NadaArray.get_parties, NadaArray.__add__.
  intros Ha Hb -> -> Hne.
  rewrite init_list_ok; [|done|by apply Forall_app].
  by rewrite provenance_app.
Qed.

(** [C7] The specification has [a + b] be a new array for all arrays. The
    code does not build one when both operands are empty: the constructor is
    handed the empty list, unpacks it and then reads its first element, so
    the concatenation of two empty arrays raises [IndexError]. The empty
    array is reachable: it is what the constructor builds from no
    argument. *)
Theorem C7_add_of_empty_arrays_raises :
  reachable empty_array
  ∧ NadaArray.__add__ empty_array empty_array = Raise IndexError.
Proof. split; [apply empty_array_reachable | reflexivity]. Qed.

(** ** The textual summary *)




(** * Further properties of the code *)

(** ** Subscripts *)

(** Which subscripts a list of length [len] accepts, and the position each
    one denotes. *)
Lemma subscript_cases (len : nat) (i : Z) :
  (0 <= i < Z.of_nat len → subscript len i = Some (Z.to_nat i))
  ∧ (- Z.of_nat len <= i < 0 →
     subscript len i = Some (Z.to_nat (i + Z.of_nat len)))
  ∧ (i < - Z.of_nat len ∨ Z.of_nat len <= i → subscript len i = None)
  ∧ (∀ k, subscript len i = Some k → (k < len)%nat).
Proof.
  unfold subscript.
  destruct (Z.leb_spec 0 i);
    [destruct (Z.ltb_spec i (Z.of_nat len))
    |destruct (Z.leb_spec (- Z.of_nat len) i)];
    split_and!; intros; simplify_eq; first [done | lia].
Qed.

Lemma subscript_in_range (len : nat) (i : Z) :
  - Z.of_nat len <= i < Z.of_nat len →
  ∃ k, subscript len i = Some k ∧ (k < len)%nat
       ∧ k = Z.to_nat (if i <? 0 then i + Z.of_nat len else i).
Proof.
  intros Hrange.
  destruct (subscript_cases len i) as (Hpos & Hneg & _ & Hlt).
  destruct (Z.ltb_spec i 0).
  - eexists. split; [apply Hneg; lia|]. split; [lia|done].
  - eexists. split; [apply Hpos; lia|]. split; [lia|done].
Qed.

Lemma getitem_cases (index : Z) (self : NadaArray.t) :
  NadaArray.__getitem__ index self =
  match subscript (length (NadaArray._data self)) index with
  | Some k =>
      match NadaArray._data self !! k with
      | Some v => (Ok v, self)
      | None => (Raise IndexError, self)
      end
  | None => (Raise IndexError, self)
  end.
Proof.
  unfold NadaArray.__getitem__, NadaArray.bind. simpl.
  destruct (subscript _ _) as [k|]; [|done].
  by destruct (_ !! k).
Qed.

(** ** Indexed reads *)

(** [X1] Reading [a[index]] never changes the array. It returns an element
    exactly for [-len <= index < len]: a subscript from 0 up denotes that
    position, a negative one denotes the position [len + index]; every other
    subscript raises [IndexError]. *)
Theorem getitem_bounds (self : NadaArray.t) (index : Z) :
  let n := Z.of_nat (NadaArray.__len__ self) in
  snd (NadaArray.__getitem__ index self) = self
  ∧ (0 <= index < n →
     ∃ v, NadaArray._data self !! Z.to_nat index = Some v
          ∧ NadaArray.__getitem__ index self = (Ok v, self))
  ∧ (- n <= index < 0 →
     NadaArray.__getitem__ index self = NadaArray.__getitem__ (index + n) self
     ∧ ∃ v, NadaArray.__getitem__ index self = (Ok v, self))
  ∧ (index < - n ∨ n <= index →
     NadaArray.__getitem__ index self = (Raise IndexError, self)).
Proof.
  intros n. subst n. unfold NadaArray.__len__.
  set (data := NadaArray._data self).
  destruct (subscript_cases (length data) index) as (Hpos & Hneg & Hout & Hlt).
  rewrite !getitem_cases. fold data.
  split_and!.
  - destruct (subscript _ _) as [k|]; [|done]. by destruct (data !! k).
  - intros Hrange. rewrite Hpos by done.
    destruct (lookup_lt_is_Some_2 data (Z.to_nat index)) as [v Hv]; [lia|].
    exists v. by rewrite Hv.
  - intros Hrange. rewrite Hneg by done.
    destruct (subscript_cases (length data) (index + Z.of_nat (length data)))
      as (Hpos' & _).
    rewrite Hpos' by lia.
    destruct (lookup_lt_is_Some_2 data
                (Z.to_nat (index + Z.of_nat (length data)))) as [v Hv]; [lia|].
    rewrite Hv. eauto.
  - intros Hrange. by rewrite Hout.
Qed.

(** ** Indexed replacement *)

(** [X2] [a[index] = item] checks the item first: a rejected item raises
    [TypeError] whatever the subscript. An accepted item with a subscript
    outside [-len .. len - 1] raises [IndexError]. In both cases the array is
    left as it was. Otherwise the call returns, the element at the denoted
    position is replaced, all other positions and the length are kept, and
    the cached set is recomputed as the provenance of the new elements. *)
Theorem setitem_outcomes (self : NadaArray.t) (index : Z) (item : pyval) :
  let n := Z.of_nat (NadaArray.__len__ self) in
  (is_secret_int item = false →
   NadaArray.__setitem__ index item self = (Raise TypeError, self))
  ∧ (is_secret_int item = true → index < - n ∨ n <= index →
     NadaArray.__setitem__ index item self = (Raise IndexError, self))
  ∧ (is_secret_int item = true → - n <= index < n →
     ∃ self' k,
       NadaArray.__setitem__ index item self = (Ok tt, self')
       ∧ k = Z.to_nat (if index <? 0 then index + n else index)
       ∧ NadaArray._data self' !! k = Some item
       ∧ (∀ j, j ≠ k → NadaArray._data self' !! j = NadaArray._data self !! j)
       ∧ NadaArray.__len__ self' = NadaArray.__len__ self
       ∧ NadaArray.get_parties self' = provenance (NadaArray._data self')).
Proof.
  intros n. subst n. unfold NadaArray.__len__, NadaArray.get_parties.
  rewrite setitem_cases. split_and!.
  - by intros ->.
  - intros -> Hrange.
    destruct (subscript_cases (length (NadaArray._data self)) index)
      as (_ & _ & Hout & _).
    by rewrite Hout.
  - intros -> Hrange.
    destruct (subscript_in_range _ _ Hrange) as (k & -> & Hk & Hkeq).
    eexists _, k. split; [reflexivity|]. simpl. split_and!.
    + done.
    + by apply list_lookup_insert_eq.
    + intros j Hj. by apply list_lookup_insert_ne.
    + apply length_insert.
    + done.
Qed.

Lemma setitem_outcomes_witness :
  NadaArray.__setitem__ 7 (PyInt 0) three_elements
  = (Raise TypeError, three_elements)
  ∧ NadaArray.__setitem__ 3 (audited party_A) three_elements
    = (Raise IndexError, three_elements)
  ∧ ∃ self' k,
      NadaArray.__setitem__ (-1) (audited party_A) three_elements = (Ok tt, self')
      ∧ k = 2%nat
      ∧ NadaArray._data self' !! k = Some (audited party_A).
Proof.
  destruct (setitem_outcomes three_elements 7 (PyInt 0)) as (Hrej & _ & _).
  destruct (setitem_outcomes three_elements 3 (audited party_A)) as (_ & Hout & _).
  destruct (setitem_outcomes three_elements (-1) (audited party_A)) as (_ & _ & Hin).
  split_and!.
  - by apply Hrej.
  - apply Hout; [done | right; vm_compute; discriminate].
  - destruct Hin as (self' & k & Hrun & Hk & Hget & _);
      [done | vm_compute; split; [discriminate | reflexivity] |].
    exists self', k. split_and!; [done | by rewrite Hk | done].
Defined.

(** [X3] After a replacement that returns, reading the same subscript gives
    the new item back, and reading any subscript that denotes another
    position gives what it gave before. *)
Theorem setitem_then_getitem
    (self self' : NadaArray.t) (index : Z) (item : pyval) :
  NadaArray.__setitem__ index item self = (Ok tt, self') →
  NadaArray.__getitem__ index self' = (Ok item, self')
  ∧ ∀ j,
      subscript (NadaArray.__len__ self) j
      ≠ subscript (NadaArray.__len__ self) index →
      fst (NadaArray.__getitem__ j self') = fst (NadaArray.__getitem__ j self).
Proof.
  unfold NadaArray.__len__. rewrite setitem_cases.
  destruct (is_secret_int item); [|discriminate].
  destruct (subscript _ index) as [k|] eqn:Hk; [|discriminate].
  intros [= <-]. rewrite !getitem_cases. simpl. rewrite length_insert, Hk.
  destruct (subscript_cases (length (NadaArray._data self)) index)
    as (_ & _ & _ & Hlt).
  split.
  - by rewrite list_lookup_insert_eq by eauto.
  - intros j Hj. rewrite !getitem_cases. simpl. rewrite length_insert.
    destruct (subscript _ j) as [kj|]; [|done].
    rewrite list_lookup_insert_ne by congruence.
    by destruct (_ !! kj).
Qed.

Lemma setitem_then_getitem_witness :
  NadaArray.__getitem__ (-1)
    (NadaArray.Build [audited party_A; plain_input party_A; audited party_A]
       {[ "A"%string ]})
  = (Ok (audited party_A),
     NadaArray.Build [audited party_A; plain_input party_A; audited party_A]
       {[ "A"%string ]}).
Proof.
  apply (setitem_then_getitem three_elements _ (-1) (audited party_A)).
  vm_compute. reflexivity.
Defined.

(** ** Indexed deletion *)

(** [X4] [del a[index]] raises [IndexError] for a subscript outside
    [-len .. len - 1], in particular for every subscript on an empty array,
    and then leaves the array as it was. Otherwise it returns, the element
    at the denoted position is gone, the elements before it keep their
    position and those after it move one place down, the length drops by
    one, and the cached set is the provenance of what remains. *)
Theorem delitem_outcomes (self : NadaArray.t) (index : Z) :
  let n := Z.of_nat (NadaArray.__len__ self) in
  (index < - n ∨ n <= index →
   NadaArray.__delitem__ index self = (Raise IndexError, self))
  ∧ (- n <= index < n →
     ∃ self' k,
       NadaArray.__delitem__ index self = (Ok tt, self')
       ∧ k = Z.to_nat (if index <? 0 then index + n else index)
       ∧ NadaArray._data self'
         = take k (NadaArray._data self) ++ drop (S k) (NadaArray._data self)
       ∧ (∀ j, (j < k)%nat →
               NadaArray._data self' !! j = NadaArray._data self !! j)
       ∧ (∀ j, (k <= j)%nat →
               NadaArray._data self' !! j = NadaArray._data self !! S j)
       ∧ S (NadaArray.__len__ self') = NadaArray.__len__ self
       ∧ NadaArray.get_parties self' = provenance (NadaArray._data self')).
Proof.
  intros n. subst n. unfold NadaArray.__len__, NadaArray.get_parties.
  rewrite delitem_cases. split.
  - intros Hrange.
    destruct (subscript_cases (length (NadaArray._data self)) index)
      as (_ & _ & Hout & _).
    by rewrite Hout.
  - intros Hrange.
    destruct (subscript_in_range _ _ Hrange) as (k & -> & Hk & Hkeq).
    eexists _, k. split; [reflexivity|]. simpl. split_and!.
    + done.
    + apply delete_take_drop.
    + intros j Hj. by apply list_lookup_delete_lt.
    + intros j Hj. by apply list_lookup_delete_ge.
    + rewrite length_delete by (by apply lookup_lt_is_Some_2). lia.
    + done.
Qed.

Lemma delitem_outcomes_witness :
  NadaArray.__delitem__ 0 empty_array = (Raise IndexError, empty_array)
  ∧ ∃ self' k,
      NadaArray.__delitem__ (-3) three_elements = (Ok tt, self')
      ∧ k = 0%nat
      ∧ NadaArray._data self' = [plain_input party_A; audited party_B].
Proof.
  destruct (delitem_outcomes empty_array 0) as (Hout & _).
  destruct (delitem_outcomes three_elements (-3)) as (_ & Hin).
  split.
  - apply Hout. right. vm_compute. discriminate.
  - destruct Hin as (self' & k & Hrun & Hk & Hdata & _);
      [vm_compute; split; [discriminate | reflexivity]|].
    exists self', k. split_and!; [done | by rewrite Hk |].
    rewrite Hdata, Hk. reflexivity.
Defined.

(** ** What a raise leaves behind *)

(** [X5] [append], [insert], indexed replacement and indexed deletion change
    nothing when they raise: the array after the call is the array before
    it. *)
Theorem raising_call_changes_nothing
    (self self' : NadaArray.t) (index : Z) (item : pyval) (e : exn) :
  (NadaArray.append item self = (Raise e, self') → self' = self)
  ∧ (NadaArray.insert index item self = (Raise e, self') → self' = self)
  ∧ (NadaArray.__setitem__ index item self = (Raise e, self') → self' = self)
  ∧ (NadaArray.__delitem__ index self = (Raise e, self') → self' = self).
Proof.
  split_and!.
  - destruct (is_secret_int item) eqn:Hitem.
    + by rewrite append_ok.
    + rewrite append_raises by done. by intros [= _ <-].
  - destruct (is_secret_int item) eqn:Hitem.
    + by rewrite insert_ok.
    + rewrite insert_raises by done. by intros [= _ <-].
  - rewrite setitem_cases.
    destruct (is_secret_int item); [destruct (subscript _ _)|];
      by intros [= _ <-] || done.
  - rewrite delitem_cases.
    destruct (subscript _ _); by intros [= _ <-] || done.
Qed.

(** [X6] Given a list, a tuple, an array other than itself or a generator,
    whose items are drawn without a raise, [extend] raises only [TypeError],
    and only when an item drawn fails the check. It then leaves
    the stored elements as they were, but the cached set has taken in the
    provenance of the items in front of the first failing one, and a
    generator is left with the items behind that one. *)
Theorem extend_raise_keeps_data
    (it it' : NadaArray.iterable) (self self' : NadaArray.t) (e : exn) :
  NadaArray.extend it self = (Raise e, self', it') →
  e = TypeError
  ∧ NadaArray._data self' = NadaArray._data self
  ∧ ∃ pre bad post,
      NadaArray.to_yield it = pre ++ bad :: post
      ∧ Forall (λ x, is_secret_int x = true) pre
      ∧ is_secret_int bad = false
      ∧ NadaArray.get_parties self'
        = NadaArray.get_parties self ∪ provenance pre
      ∧ it' = NadaArray.after_loop it post.
Proof.
  unfold NadaArray.extend.
  destruct (first_rejected (NadaArray.to_yield it))
    as [Hall | (pre & bad & post & Heq & Hpre & Hbad)].
  - by rewrite extend_loop_ok.
  - rewrite Heq, extend_loop_raises by done. intros [= <- <- <-].
    split_and!; [done..|]. by exists pre, bad, post.
Qed.

Lemma extend_raise_keeps_data_witness :
  TypeError = TypeError
  ∧ NadaArray._data (NadaArray.Build [] {[ "B"%string ]})
    = NadaArray._data empty_array
  ∧ ∃ pre bad post,
      NadaArray.to_yield
        (NadaArray.Generator [audited party_B; PyInt 5; audited party_A])
      = pre ++ bad :: post
      ∧ Forall (λ x, is_secret_int x = true) pre
      ∧ is_secret_int bad = false
      ∧ NadaArray.get_parties (NadaArray.Build [] {[ "B"%string ]})
        = NadaArray.get_parties empty_array ∪ provenance pre
      ∧ NadaArray.Generator [audited party_A]
        = NadaArray.after_loop
            (NadaArray.Generator [audited party_B; PyInt 5; audited party_A])
            post.
Proof.
  apply (extend_raise_keeps_data
           (NadaArray.Generator [audited party_B; PyInt 5; audited party_A])
           (NadaArray.Generator [audited party_A])
           empty_array (NadaArray.Build [] {[ "B"%string ]}) TypeError).
  vm_compute. reflexivity.
Defined.

(** [X7] [append], [insert] and [extend] never take a party out of the
    cached set and never shorten the array, whether they return or raise. *)
Theorem adding_calls_only_grow
    (self self' : NadaArray.t) (index : Z) (item : pyval)
    (it it' : NadaArray.iterable) (r : result unit) :
  (NadaArray.append item self = (r, self') →
   NadaArray.get_parties self ⊆ NadaArray.get_parties self'
   ∧ (NadaArray.__len__ self <= NadaArray.__len__ self')%nat)
  ∧ (NadaArray.insert index item self = (r, self') →
     NadaArray.get_parties self ⊆ NadaArray.get_parties self'
     ∧ (NadaArray.__len__ self <= NadaArray.__len__ self')%nat)
  ∧ (NadaArray.extend it self = (r, self', it') →
     NadaArray.get_parties self ⊆ NadaArray.get_parties self'
     ∧ (NadaArray.__len__ self <= NadaArray.__len__ self')%nat).
Proof.
  unfold NadaArray.get_parties, NadaArray.__len__. split_and!.
  - destruct (is_secret_int item) eqn:Hitem.
    + rewrite append_ok by done. intros [= _ <-]. simpl.
      rewrite length_app. split; [set_solver | lia].
    + rewrite append_raises by done. by intros [= _ <-].
  - destruct (is_secret_int item) eqn:Hitem.
    + rewrite insert_ok by done. intros [= _ <-]. simpl.
      destruct (list_insert_at_cases (NadaArray._data self) index item)
        as (-> & _).
      split; [set_solver | lia].
    + rewrite insert_raises by done. by intros [= _ <-].
  - unfold NadaArray.extend.
    destruct (first_rejected (NadaArray.to_yield it))
      as [Hall | (pre & bad & post & Heq & Hpre & Hbad)].
    + rewrite extend_loop_ok by done. intros [= _ <- _]. simpl.
      rewrite length_app. split; [set_solver | lia].
    + rewrite Heq, extend_loop_raises by done. intros [= _ <- _]. simpl.
      split; [set_solver | lia].
Qed.

(** ** Round trips *)

(** [X8] On an array whose cached set is consistent with its elements,
    appending an accepted item and then deleting the last element
    ([del a[-1]]) gives back exactly the array one started from, cached set
    included. *)
Theorem append_then_delete_last (self : NadaArray.t) (item : pyval) :
  consistent self →
  is_secret_int item = true →
  ∃ self1,
    NadaArray.append item self = (Ok tt, self1)
    ∧ NadaArray.__delitem__ (-1) self1 = (Ok tt, self).
Proof.
  destruct self as [data parties]. unfold consistent. simpl.
  intros Hcons Hitem. eexists. split; [by apply append_ok|].
  rewrite delitem_cases. simpl.
  assert (Hlen : length (data ++ [item]) = S (length data))
    by (rewrite length_app; simpl; lia).
  destruct (subscript_cases (length (data ++ [item])) (-1)) as (_ & Hneg & _).
  rewrite Hneg by lia.
  assert (Hk : Z.to_nat (-1 + Z.of_nat (length (data ++ [item]))) = length data)
    by lia.
  rewrite Hk, delete_take_drop, take_app_length.
  rewrite drop_ge by lia.
  rewrite app_nil_r. by rewrite Hcons.
Qed.

Lemma append_then_delete_last_witness :
  ∃ self1,
    NadaArray.append (audited party_B) three_elements = (Ok tt, self1)
    ∧ NadaArray.__delitem__ (-1) self1 = (Ok tt, three_elements).
Proof.
  apply (append_then_delete_last three_elements (audited party_B));
    [vm_compute | ]; reflexivity.
Defined.

(** [X9] On an array whose cached set is consistent with its elements,
    inserting an accepted item at a position in [0 .. len] and then deleting
    at that same position gives back exactly the array one started from. *)
Theorem insert_then_delete (self : NadaArray.t) (index : Z) (item : pyval) :
  consistent self →
  is_secret_int item = true →
  0 <= index <= Z.of_nat (NadaArray.__len__ self) →
  ∃ self1,
    NadaArray.insert index item self = (Ok tt, self1)
    ∧ NadaArray.__getitem__ index self1 = (Ok item, self1)
    ∧ NadaArray.__delitem__ index self1 = (Ok tt, self).
Proof.
  unfold NadaArray.__len__.
  intros Hcons Hitem Hrange. eexists. split; [by apply insert_ok|].
  rewrite delitem_cases, getitem_cases. simpl.
  destruct (list_insert_at_cases (NadaArray._data self) index item)
    as (Hlen & Hin & _).
  destruct (Hin Hrange) as [Hdata Hget].
  rewrite Hlen.
  destruct (subscript_cases (S (length (NadaArray._data self))) index)
    as (Hpos & _).
  rewrite Hpos by lia.
  rewrite Hget. split; [done|].
  rewrite Hdata, delete_take_drop.
  assert (Hk : (Z.to_nat index <= length (NadaArray._data self))%nat) by lia.
  rewrite take_app_length' by (rewrite length_take; lia).
  change (take (Z.to_nat index) (NadaArray._data self)
          ++ item :: drop (Z.to_nat index) (NadaArray._data self))
    with (take (Z.to_nat index) (NadaArray._data self)
          ++ [item] ++ drop (Z.to_nat index) (NadaArray._data self)).
  rewrite app_assoc.
  rewrite drop_app_length' by (rewrite length_app, length_take; simpl; lia).
  rewrite take_drop. destruct self as [data parties].
  unfold consistent in Hcons. simpl in *. by rewrite Hcons.
Qed.

Lemma insert_then_delete_witness :
  ∃ self1,
    NadaArray.insert 1 (audited party_B) three_elements = (Ok tt, self1)
    ∧ NadaArray.__getitem__ 1 self1 = (Ok (audited party_B), self1)
    ∧ NadaArray.__delitem__ 1 self1 = (Ok tt, three_elements).
Proof.
  apply (insert_then_delete three_elements 1 (audited party_B));
    [vm_compute; reflexivity | reflexivity | vm_compute; split; discriminate].
Defined.

(** ** [extend] and [append] *)

(** [X10] On a sequence of accepted items [extend] leaves the array in the
    state that appending the items one after the other leaves it in, and the
    sequence itself is as before; in particular extending by the empty
    sequence changes nothing. *)
Theorem extend_is_repeated_append (self : NadaArray.t) (items : list pyval) :
  Forall (λ e, is_secret_int e = true) items →
  ∃ self',
    NadaArray.extend (NadaArray.Sequence items) self
    = (Ok tt, self', NadaArray.Sequence items)
    ∧ NadaArray.for_in NadaArray.append items self = (Ok tt, self', [])
    ∧ NadaArray.__len__ self' = (NadaArray.__len__ self + length items)%nat
    ∧ (items = [] → self' = self).
Proof.
  intros Hall. eexists. split; [by apply extend_sequence_ok|].
  split; [by apply append_loop_ok|].
  unfold NadaArray.__len__. simpl. split; [by rewrite length_app|].
  intros ->. destruct self as [data parties]. simpl.
  rewrite app_nil_r. f_equal. solve_parties.
Qed.

Lemma extend_is_repeated_append_witness :
  ∃ self',
    NadaArray.extend
      (NadaArray.Sequence [audited party_B; plain_input party_A]) three_elements
    = (Ok tt, self', NadaArray.Sequence [audited party_B; plain_input party_A])
    ∧ NadaArray.for_in NadaArray.append
        [audited party_B; plain_input party_A] three_elements
      = (Ok tt, self', [])
    ∧ NadaArray.__len__ self' = (NadaArray.__len__ three_elements + 2)%nat
    ∧ ([audited party_B; plain_input party_A] = [] → self' = three_elements).
Proof.
  apply (extend_is_repeated_append three_elements
           [audited party_B; plain_input party_A]).
  repeat constructor.
Defined.

(** ** The constructor, case by case *)

Lemma construct_ok (items : list pyval) :
  Forall (λ e, is_secret_int e = true) items →
  match NadaArray.for_in NadaArray.append items (NadaArray.Build [] ∅) with
  | (Ok _, self', _) => Ok self'
  | (Raise e, _, _) => Raise e
  end
  = Ok (NadaArray.Build items (provenance items)).
Proof.
  intros Hall. rewrite append_loop_ok by done. simpl.
  do 2 f_equal. solve_parties.
Qed.

Lemma construct_raises (items : list pyval) :
  ¬ Forall (λ e, is_secret_int e = true) items →
  match NadaArray.for_in NadaArray.append items (NadaArray.Build [] ∅) with
  | (Ok _, self', _) => Ok self'
  | (Raise e, _, _) => Raise e
  end
  = Raise TypeError.
Proof.
  intros Hnot.
  destruct (first_rejected items)
    as [Hall | (pre & bad & post & -> & Hpre & Hbad)]; [done|].
  pose proof (append_loop_raises pre bad post (NadaArray.Build [] ∅) Hpre Hbad)
    as Hr.
  destruct (NadaArray.for_in _ _ _) as [[[|e] self'] rest]; simpl in Hr;
    [discriminate|]. by injection Hr as ->.
Qed.

(** [X11] Called with no argument or with two or more, the constructor takes
    the arguments themselves as the elements: it builds the array holding
    exactly them, in order, with their provenance as cached set, when all of
    them are accepted, and raises [TypeError] when one is not. With no
    argument it builds the empty array. *)
Theorem init_variadic (args : list pyval) :
  length args ≠ 1%nat →
  (Forall (λ e, is_secret_int e = true) args →
   NadaArray.__init__ args = Ok (NadaArray.Build args (provenance args)))
  ∧ (¬ Forall (λ e, is_secret_int e = true) args →
     NadaArray.__init__ args = Raise TypeError)
  ∧ (args = [] → NadaArray.__init__ args = Ok empty_array).
Proof.
  intros Hlen. unfold NadaArray.__init__.
  destruct args as [|a [|b rest]]; [|done|].
  - split_and!; [done | intros Hnot; by destruct Hnot | done].
  - split_and!; [apply construct_ok | apply construct_raises | done].
Qed.

Lemma init_variadic_witness :
  (Forall (λ e, is_secret_int e = true) [audited party_A; plain_input party_B] →
   NadaArray.__init__ [audited party_A; plain_input party_B]
   = Ok (NadaArray.Build [audited party_A; plain_input party_B]
           (provenance [audited party_A; plain_input party_B])))
  ∧ (¬ Forall (λ e, is_secret_int e = true)
         [audited party_A; plain_input party_B] →
     NadaArray.__init__ [audited party_A; plain_input party_B]
     = Raise TypeError)
  ∧ ([audited party_A; plain_input party_B] = [] →
     NadaArray.__init__ [audited party_A; plain_input party_B]
     = Ok empty_array).
Proof.
  apply (init_variadic [audited party_A; plain_input party_B]).
  simpl. discriminate.
Defined.

(** [X12] Called with one list, the constructor raises [IndexError] when the
    list is empty. When the first element of the list is a generator, the
    list is replaced by what that generator yields and its other elements
    are ignored: the result is that of constructing from the generator
    alone. In every other case the elements of the list are the elements of
    the array: it is built when all of them are accepted, and [TypeError] is
    raised when one is not. *)
Theorem init_single_list (items : list pyval) :
  (items = [] → NadaArray.__init__ [PyList items] = Raise IndexError)
  ∧ (∀ pending rest,
       items = PyGenerator pending :: rest →
       NadaArray.__init__ [PyList items]
       = NadaArray.__init__ [PyGenerator pending])
  ∧ (∀ x rest,
       items = x :: rest → type x ≠ TGenerator →
       (Forall (λ e, is_secret_int e = true) items →
        NadaArray.__init__ [PyList items]
        = Ok (NadaArray.Build items (provenance items)))
       ∧ (¬ Forall (λ e, is_secret_int e = true) items →
          NadaArray.__init__ [PyList items] = Raise TypeError)).
Proof.
  split_and!.
  - by intros ->.
  - by intros pending rest ->.
  - intros x rest -> Hx. unfold NadaArray.__init__.
    destruct x; try done;
      (split; [apply construct_ok | apply construct_raises]).
Qed.

(** ** What a reachable array holds *)

(** [X13] Every element read from a reachable array is of one of the two
    accepted classes, and every party it resolves to is in the array's
    cached set. *)
Theorem reachable_getitem_secret
    (self self' : NadaArray.t) (index : Z) (v : pyval) :
  reachable self →
  NadaArray.__getitem__ index self = (Ok v, self') →
  is_secret_int v = true
  ∧ NadaArray._gather_parties v ⊆ NadaArray.get_parties self.
Proof.
  intros Hreach. destruct (reachable_invariants self Hreach) as [Hhom Hcons].
  rewrite getitem_cases.
  destruct (subscript _ _) as [k|]; [|discriminate].
  destruct (NadaArray._data self !! k) as [w|] eqn:Hw; [|discriminate].
  intros [= -> _]. split.
  - unfold homogeneous in Hhom. rewrite Forall_lookup in Hhom. by eapply Hhom.
  - unfold NadaArray.get_parties. intros p Hp. apply Hcons.
    apply elem_of_provenance. exists v. split; [|done].
    by eapply list_elem_of_lookup_2.
Qed.

Lemma reachable_getitem_secret_witness :
  is_secret_int (audited party_B) = true
  ∧ NadaArray._gather_parties (audited party_B)
    ⊆ NadaArray.get_parties three_elements.
Proof.
  apply (reachable_getitem_secret three_elements three_elements (-1)).
  - apply three_elements_reachable.
  - vm_compute. reflexivity.
Defined.

(** ** Concatenation of reachable arrays *)

Lemma add_ok_nonempty (a b c : NadaArray.t) :
  NadaArray.__add__ a b = Ok c → NadaArray._data a ++ NadaArray._data b ≠ [].
Proof.
  unfold NadaArray.__add__. intros Hadd Hnil. rewrite Hnil in Hadd.
  discriminate Hadd.
Qed.

(** Concatenation looks at the elements only: for operands that satisfy I1
    and are not both empty it builds the array of the receiver's elements
    followed by the other operand's, with the provenance of those elements
    as cached set. *)
Lemma add_homogeneous (a b : NadaArray.t) :
  homogeneous a → homogeneous b →
  NadaArray._data a ++ NadaArray._data b ≠ [] →
  NadaArray.__add__ a b
  = Ok (NadaArray.Build (NadaArray._data a ++ NadaArray._data b)
          (provenance (NadaArray._data a ++ NadaArray._data b))).
Proof.
  unfold homogeneous, NadaArray.__add__. intros Ha Hb Hne.
  apply init_list_ok; [done | by apply Forall_app].
Qed.

(** [X14] For reachable arrays that are not both empty, [a + b] returns a
    new array that holds the elements of [a] followed by those of [b] and
    has the sum of the two lengths. Its cached set is computed afresh from
    those elements: it is the union of the provenance of the elements of
    [a] and of [b], hence consistent with what the new array holds and
    included in the union of the two operands' cached sets; it is equal to
    that union when both operands' cached sets are consistent with their
    elements, and can be smaller otherwise. The new array is reachable. *)
Theorem add_of_reachable (a b : NadaArray.t) :
  reachable a → reachable b →
  (NadaArray.__len__ a + NadaArray.__len__ b ≠ 0)%nat →
  ∃ c,
    NadaArray.__add__ a b = Ok c
    ∧ NadaArray._data c = NadaArray._data a ++ NadaArray._data b
    ∧ NadaArray.__len__ c = (NadaArray.__len__ a + NadaArray.__len__ b)%nat
    ∧ NadaArray.get_parties c
      = provenance (NadaArray._data a) ∪ provenance (NadaArray._data b)
    ∧ consistent c
    ∧ NadaArray.get_parties c
      ⊆ NadaArray.get_parties a ∪ NadaArray.get_parties b
    ∧ (consistent a → consistent b →
       NadaArray.get_parties c
       = NadaArray.get_parties a ∪ NadaArray.get_parties b)
    ∧ reachable c.
Proof.
  intros Ha Hb Hlen.
  destruct (reachable_invariants a Ha) as [Hha Hca].
  destruct (reachable_invariants b Hb) as [Hhb Hcb].
  assert (Hne : NadaArray._data a ++ NadaArray._data b ≠ []).
  { intros Hnil. apply (f_equal length) in Hnil.
    rewrite length_app in Hnil. unfold NadaArray.__len__ in Hlen.
    simpl in Hnil. lia. }
  pose proof (add_homogeneous a b Hha Hhb Hne) as Hadd.
  eexists. split; [exact Hadd|].
  unfold NadaArray.__len__, NadaArray.get_parties, consistent, covered in *.
  simpl. split_and!.
  - done.
  - by rewrite length_app.
  - by rewrite provenance_app.
  - done.
  - rewrite provenance_app. set_solver.
  - intros -> ->. by rewrite provenance_app.
  - apply (reach_init [PyList (NadaArray._data a ++ NadaArray._data b)]).
    exact Hadd.
Qed.

Lemma add_of_reachable_witness :
  ∃ c,
    NadaArray.__add__ stale_array two_parties = Ok c
    ∧ NadaArray._data c
      = NadaArray._data stale_array ++ NadaArray._data two_parties
    ∧ NadaArray.__len__ c
      = (NadaArray.__len__ stale_array + NadaArray.__len__ two_parties)%nat
    ∧ NadaArray.get_parties c
      = provenance (NadaArray._data stale_array)
        ∪ provenance (NadaArray._data two_parties)
    ∧ consistent c
    ∧ NadaArray.get_parties c
      ⊆ NadaArray.get_parties stale_array ∪ NadaArray.get_parties two_parties
    ∧ (consistent stale_array → consistent two_parties →
       NadaArray.get_parties c
       = NadaArray.get_parties stale_array
         ∪ NadaArray.get_parties two_parties)
    ∧ reachable c.
Proof.
  apply (add_of_reachable stale_array two_parties).
  - apply stale_array_reachable.
  - apply two_parties_reachable.
  - simpl. discriminate.
Defined.

(** The sum of [stale_array] with itself does not name B, which the cached
    set of [stale_array] names. *)
Example add_drops_stale_party :
  NadaArray.__add__ stale_array stale_array
  = Ok (NadaArray.Build [audited party_A; audited party_A] {[ "A"%string ]}).
Proof. vm_compute. reflexivity. Qed.

(** [X15] Concatenation of reachable arrays is associative wherever the two
    inner sums exist: [(a + b) + c] and [a + (b + c)] then both return, and
    return the same array. *)
Theorem add_assoc (a b c ab bc : NadaArray.t) :
  reachable a → reachable b → reachable c →
  NadaArray.__add__ a b = Ok ab →
  NadaArray.__add__ b c = Ok bc →
  NadaArray.__add__ ab c = NadaArray.__add__ a bc
  ∧ ∃ abc, NadaArray.__add__ ab c = Ok abc.
Proof.
  intros Ha Hb Hc Hab Hbc.
  destruct (reachable_invariants a Ha) as [Hha _].
  destruct (reachable_invariants b Hb) as [Hhb _].
  destruct (reachable_invariants c Hc) as [Hhc _].
  pose proof (add_ok_nonempty a b ab Hab) as Hnab.
  pose proof (add_ok_nonempty b c bc Hbc) as Hnbc.
  rewrite (add_homogeneous a b) in Hab by done.
  rewrite (add_homogeneous b c) in Hbc by done.
  injection Hab as <-. injection Hbc as <-.
  rewrite (add_homogeneous
             (NadaArray.Build (NadaArray._data a ++ NadaArray._data b)
                (provenance (NadaArray._data a ++ NadaArray._data b))) c);
    simpl.
  - rewrite (add_homogeneous a
               (NadaArray.Build (NadaArray._data b ++ NadaArray._data c)
                  (provenance (NadaArray._data b ++ NadaArray._data c))));
      simpl.
    + split; [|eauto]. by rewrite app_assoc.
    + done.
    + unfold homogeneous in *. simpl. by apply Forall_app.
    + intros Hnil. apply app_eq_nil in Hnil as [_ Hnil]. by apply Hnbc.
  - unfold homogeneous in *. simpl. by apply Forall_app.
  - done.
  - intros Hnil. apply app_eq_nil in Hnil as [Hnil _]. by apply Hnab.
Qed.

Lemma add_assoc_witness :
  NadaArray.__add__
    (NadaArray.Build
       (NadaArray._data three_elements ++ NadaArray._data empty_array)
       {[ "A"%string; "B"%string ]})
    two_parties
  = NadaArray.__add__ three_elements
      (NadaArray.Build
         (NadaArray._data empty_array ++ NadaArray._data two_parties)
         {[ "b"%string; "a"%string ]})
  ∧ ∃ abc,
      NadaArray.__add__
        (NadaArray.Build
           (NadaArray._data three_elements ++ NadaArray._data empty_array)
           {[ "A"%string; "B"%string ]})
        two_parties
      = Ok abc.
Proof.
  apply (add_assoc three_elements empty_array two_parties).
  - apply three_elements_reachable.
  - apply empty_array_reachable.
  - apply two_parties_reachable.
  - vm_compute. reflexivity.
  - vm_compute. reflexivity.
Defined.

(** ** [sum_nada_array] on arrays and on concatenations *)

(** The loop over a concatenation runs over the first part and goes on over
    the second from the value reached, unless the first part raised. *)
Lemma sum_loop_app (add : pyval → pyval → result pyval) (l1 l2 : list pyval) :
  ∀ output,
    sum_loop add output (l1 ++ l2)
    = match sum_loop add output l1 with
      | Ok v => sum_loop add v l2
      | Raise ex => Raise ex
      end.
Proof.
  induction l1 as [|e l1 IH]; intros output; simpl; [done|].
  destruct (is_secret_int e); [|done].
  destruct (add output e); [apply IH | done].
Qed.

(** [X16] The sum of the elements of a reachable, non-empty array is the
    left-to-right fold of the values' addition from its first element: the
    type check inside the loop never fires on it. *)
Theorem sum_of_reachable_array
    (add : pyval → pyval → result pyval)
    (self : NadaArray.t) (first : pyval) (rest : list pyval) :
  reachable self →
  NadaArray._data self = first :: rest →
  sum_nada_array add (NadaArray._data self) = fold_add add first rest.
Proof.
  intros Hreach Hdata.
  destruct (reachable_invariants self Hreach) as [Hhom _].
  unfold homogeneous in Hhom. rewrite Hdata in Hhom |- *.
  inversion Hhom as [|? ? _ Hrest]; subst.
  unfold sum_nada_array. simpl. rewrite drop_0. by apply sum_loop_fold.
Qed.

Lemma sum_of_reachable_array_witness :
  sum_nada_array sample_add (NadaArray._data three_elements)
  = fold_add sample_add (audited party_A)
      [plain_input party_A; audited party_B].
Proof.
  apply (sum_of_reachable_array sample_add three_elements).
  - apply three_elements_reachable.
  - reflexivity.
Defined.

(** [X17] The sum of a concatenation whose first part is not empty is the
    sum of the sequence made of the sum of the first part followed by the
    second part; when the first part raises, the whole raises the same
    exception, whatever the second part holds. *)
Theorem sum_of_concatenation
    (add : pyval → pyval → result pyval) (l1 l2 : list pyval) :
  l1 ≠ [] →
  sum_nada_array add (l1 ++ l2)
  = match sum_nada_array add l1 with
    | Ok v => sum_nada_array add (v :: l2)
    | Raise ex => Raise ex
    end.
Proof.
  intros Hne. destruct l1 as [|first l1]; [done|].
  unfold sum_nada_array. simpl. rewrite !drop_0. apply sum_loop_app.
Qed.

Lemma sum_of_concatenation_witness :
  sum_nada_array sample_add
    ([audited party_A; PyInt 3] ++ [plain_input party_B])
  = match sum_nada_array sample_add [audited party_A; PyInt 3] with
    | Ok v => sum_nada_array sample_add [v; plain_input party_B]
    | Raise ex => Raise ex
    end.
Proof.
  apply (sum_of_concatenation sample_add [audited party_A; PyInt 3]).
  discriminate.
Defined.

(** ** The traversal and the inputs it reaches *)

Lemma resolve_owns (n : node) : ∀ q, q ∈ resolve n → owns n q.
Proof.
  induction n as [party attrs | attrs | i l r a0 a1 t Hi Hl Hr H0 H1 Ht]
    using node_links_ind; intros q; simpl.
  - destruct party as [p|]; [|set_solver].
    intros Hq. apply elem_of_singleton in Hq as ->. constructor.
  - set_solver.
  - rewrite !elem_of_union.
    intros [[[[[Hq|Hq]|Hq]|Hq]|Hq]|Hq].
    + destruct i as [c|]; [|set_solver]. apply owns_inner. by apply Hi.
    + destruct l as [c|]; [|set_solver]. apply owns_left. by apply Hl.
    + destruct r as [c|]; [|set_solver]. apply owns_right. by apply Hr.
    + destruct a0 as [c|]; [|set_solver]. apply owns_arg_0. by apply H0.
    + destruct a1 as [c|]; [|set_solver]. apply owns_arg_1. by apply H1.
    + destruct t as [c|]; [|set_solver]. apply owns_this. by apply Ht.
Qed.

Lemma owns_resolve (n : node) (q : string) : owns n q → q ∈ resolve n.
Proof.
  induction 1; simpl; set_solver.
Qed.

(** [X18] A name is gathered from a node exactly when the node owns it: the
    node is an input whose party has that name, or it is neither an input
    nor a literal and a sub-node under one of its six attributes owns the
    name. So nothing below an input or a literal is ever gathered, and a
    name is gathered from any depth through operator nodes. *)
Theorem gather_parties_owns (n : node) (q : string) :
  q ∈ _gather_parties n ↔ owns n q.
Proof.
  rewrite gather_parties_resolve. split.
  - apply resolve_owns.
  - apply owns_resolve.
Qed.

(** An input of B hidden under a literal's attribute is not found, and
    neither is one under an input without party. *)
Example literal_hides_inputs :
  _gather_parties
    (Operation
       (Links (Some (Literal (Links (Some (Input (Some party_B) no_links))
                                None None None None None)))
          (Some (Input None (Links None (Some (Input (Some party_B) no_links))
                               None None None None)))
          (Some (Input (Some party_A) no_links)) None None None))
  = {[ "A"%string ]}.
Proof. vm_compute. reflexivity. Qed.

(** ** [serialize_input_array] *)

Lemma init_generator_ok (pending : list pyval) :
  Forall (λ e, is_secret_int e = true) pending →
  NadaArray.__init__ [PyGenerator pending]
  = Ok (NadaArray.Build pending (provenance pending)).
Proof. intros Hall. unfold NadaArray.__init__. by apply construct_ok. Qed.

Lemma provenance_same_party (p : string) (data : list pyval) :
  data ≠ [] →
  Forall (λ e, NadaArray._gather_parties e = {[ p ]}) data →
  provenance data = {[ p ]}.
Proof.
  intros Hne Hall. induction Hall as [|e data He Hall IH]; [done|].
  rewrite provenance_cons, He.
  destruct data as [|e' data]; [solve_parties|].
  rewrite IH by done. set_solver.
Qed.

(** [X19] [serialize_input_array] always returns an array, also for an
    empty [arr], for which it is the empty array. The array has the length
    of [arr] and its element at position [i] is the audited secret integer
    built from the input named [prefix] followed by the decimal [i]; the
    values held in [arr] play no part. When the DSL attaches to such a value
    exactly the party it was given, and [arr] is not empty, the cached set
    is that party's name alone. *)
Theorem serialize_input_array_builds
    (audit_parties : string → Party → list Party)
    (arr : list Z) (party : Party) (prefix : string) :
  ∃ self,
    serialize_input_array audit_parties arr party prefix = Ok self
    ∧ NadaArray.__len__ self = length arr
    ∧ (∀ i, (i < length arr)%nat →
            NadaArray._data self !! i
            = Some (audit_input audit_parties
                      (String.append prefix (str_of_nat i)) party))
    ∧ (∀ arr', length arr' = length arr →
               serialize_input_array audit_parties arr' party prefix = Ok self)
    ∧ (arr = [] → self = empty_array)
    ∧ ((∀ input_name, audit_parties input_name party = [party]) →
       arr ≠ [] → NadaArray.get_parties self = {[ name party ]}).
Proof.
  unfold serialize_input_array.
  set (element := λ i : nat,
         audit_input audit_parties (String.append prefix (str_of_nat i)) party).
  assert (Hall : ∀ l : list nat,
             Forall (λ e, is_secret_int e = true) (element <$> l)).
  { intros l. apply Forall_fmap. by apply Forall_true. }
  eexists. split; [by apply init_generator_ok|].
  unfold NadaArray.__len__, NadaArray.get_parties. simpl. split_and!.
  - by rewrite length_fmap, length_seq.
  - intros i Hi. rewrite list_lookup_fmap, lookup_seq_lt by done. done.
  - intros arr' Hlen. rewrite Hlen. by apply init_generator_ok.
  - by intros ->.
  - intros Hparty Hne. apply provenance_same_party.
    + destruct arr; [done|]. discriminate.
    + apply Forall_fmap, Forall_true. intros i. simpl. unfold element.
      unfold audit_input. simpl. rewrite Hparty. simpl. set_solver.
Qed.

Lemma serialize_input_array_builds_witness :
  serialize_input_array (λ _ p, [p]) [10; 20; 30] party_A "x"
  = Ok (NadaArray.Build
          [AuditSecretInteger [party_A]; AuditSecretInteger [party_A];
           AuditSecretInteger [party_A]]
          {[ "A"%string ]}).
Proof.
  destruct (serialize_input_array_builds (λ _ p, [p]) [10; 20; 30] party_A "x")
    as (self & Hrun & _).
  rewrite Hrun. f_equal.
  assert (Hs : Ok self
               = serialize_input_array (λ _ p, [p]) [10; 20; 30] party_A "x")
    by (by rewrite Hrun).
  vm_compute in Hs. by injection Hs as ->.
Defined.
